(** * rlpoker/agent.py: replay memories and training orchestration

    A shallow embedding of [Reservoir], [CircularBuffer] and [Agent] from
    [src/rlpoker/agent.py], together with the parts of the Python and
    TensorFlow libraries those classes call ([collections.deque],
    [random.sample], [numpy.random.rand], [numpy.random.choice],
    [tf.get_collection], [tf.layers.dense]).

    Conventions.
    - Python [int] is [Z].  A Python [float] is the rational it denotes,
      and operations on it round to the nearest double ([Float.round]).
    - The arithmetic inside a network (the dense layers) is idealised as
      exact arithmetic on rationals [Qc].  The training step reads a
      network's output rounded to [float32], and the tensors it builds
      from it are [float32] values with infinities and NaN ([F32.t]),
      rounded after each operation.
    - A Python call is a computation in the monad [M S A := S -> res A * S]:
      it returns a value or raises, and in both cases leaves a state behind
      (an exception does not roll back earlier assignments).
    - The two global random generators ([numpy.random] and [random]) are
      explicit: each is a tape of raw draws with a read position. *)

From Stdlib Require Import ZArith QArith Qabs Qcanon String Lia.
From stdpp Require Import base tactics option list numbers gmap strings.

Local Open Scope Z_scope.

(** ** Exceptions and results *)

(** [ValueError] .. [OverflowError] are the exceptions that the
    statements and library calls of [agent.py] can raise.  The last three
    constructors are the error names used by the specification; no statement
    of [agent.py] raises them, and they are here so that statements about
    them can be written down. *)
Inductive exn : Set :=
  | ValueError
  | IndexError
  | ZeroDivisionError
  | AssertionError
  | FailedPreconditionError
  | OverflowError
  | InsufficientDataError
  | ConfigurationError
  | ShapeMismatchError.

Inductive res (A : Type) : Type :=
  | Ok (a : A)
  | Raise (e : exn).
Arguments Ok {A} a.
Arguments Raise {A} e.

(** ** State-and-exception monad *)

Definition M (S A : Type) : Type := S -> res A * S.

Definition ret {S A} (a : A) : M S A := fun s => (Ok a, s).
Definition raise {S A} (e : exn) : M S A := fun s => (Raise e, s).
Definition bind {S A B} (m : M S A) (k : A -> M S B) : M S B :=
  fun s => match m s with
           | (Ok a, s') => k a s'
           | (Raise e, s') => (Raise e, s')
           end.
Definition get {S} : M S S := fun s => (Ok s, s).

Notation "x <~ m ;; k" := (bind m (fun x => k))
  (at level 100, m at next level, right associativity).
Notation "m ;;; k" := (bind m (fun _ => k))
  (at level 100, right associativity).

(** [for x in xs: body(x)] *)
Fixpoint for_each {S A} (xs : list A) (body : A -> M S unit) : M S unit :=
  match xs with
  | [] => ret tt
  | x :: xs' => body x ;;; for_each xs' body
  end.

(** Python's [assert c]. *)
Definition assert {S} (c : bool) : M S unit :=
  if c then ret tt else raise AssertionError.

(** ** Random generators *)

Record rng : Type := Rng { tape : nat -> Z; pos : nat }.

Definition next_raw (g : rng) : Z * rng :=
  (tape g (pos g), Rng (tape g) (S (pos g))).

(** The two module-level generators the code draws from. *)
Record World : Type := World_ { np_random : rng; py_random : rng }.

Module Random.

(** [random._randbelow(n)] for [n > 0]: an integer in [[0, n)]. *)
Definition randbelow (n : nat) (g : rng) : nat * rng :=
  let (z, g') := next_raw g in (Z.to_nat (z mod Z.of_nat n), g').

(** The selection loop of [random.sample]:
<<
    pool = list(population)
    for i in range(k):
        j = randbelow(n - i)
        result[i] = pool[j]
        pool[j] = pool[n - i - 1]
>>
    [m] is [n - i].  A read outside the list is Python's [IndexError]. *)
Fixpoint select {A} (pool : list A) (m k : nat) (g : rng) : res (list A) * rng :=
  match k with
  | O => (Ok [], g)
  | S k' =>
      let (j, g1) := randbelow m g in
      match pool !! j, pool !! (m - 1)%nat with
      | Some x, Some y =>
          match select (<[j := y]> pool) (m - 1) k' g1 with
          | (Ok r, g2) => (Ok (x :: r), g2)
          | (Raise e, g2) => (Raise e, g2)
          end
      | _, _ => (Raise IndexError, g1)
      end
  end.

(** [random.sample(population, k)].  The population is copied into
    [pool] first, so the caller's sequence is never written.  CPython
    switches, for populations larger than a threshold that grows with
    [k], to choosing the [k] positions by rejection against a set of
    already chosen positions; that variant returns the same kind of
    result (the items at [k] distinct positions) and is never used when
    [k] is the whole population.  The pool variant is the one modelled. *)
Definition sample {A} (population : list A) (k : Z) : M rng (list A) :=
  fun g =>
    let n := length population in
    if (0 <=? k) && (k <=? Z.of_nat n)
    then select population n (Z.to_nat k) g
    else (Raise ValueError, g).

End Random.

Module NumpyRandom.

Definition two53 : positive := 9007199254740992%positive.

(** [numpy.random.rand()]: a double in [[0, 1)], a multiple of [2^-53]. *)
Definition rand (g : rng) : Qc * rng :=
  let (z, g') := next_raw g in (Q2Qc (Qmake (z mod Z.pos two53) two53), g').

(** [numpy.random.choice(a)] for an integer [a]: a uniform draw from
    [range(a)]; [ValueError] when [a <= 0]. *)
Definition choice (a : Z) : M rng Z :=
  fun g =>
    if a <=? 0 then (Raise ValueError, g)
    else let (z, g') := next_raw g in (Ok (z mod a), g').

End NumpyRandom.
Arguments NumpyRandom.rand : simpl never.

(** Running a draw of one of the two generators inside a larger state. *)
Definition with_np {T A} (m : M rng A) : M (T * World) A :=
  fun '(self, w) =>
    let (r, g') := m (np_random w) in (r, (self, World_ g' (py_random w))).
Definition with_py {T A} (m : M rng A) : M (T * World) A :=
  fun '(self, w) =>
    let (r, g') := m (py_random w) in (r, (self, World_ (np_random w) g')).

(** ** collections.deque *)

Module Deque.

(** [deque(maxlen=...)]: [None] is unbounded, a negative bound is refused.
    The bound is taken in the range of a C [ssize_t]
    ([-2^63 <= maxlen < 2^63]), as the length of every Python sequence
    is; outside it CPython refuses the conversion with [OverflowError],
    which is not modelled. *)
Definition new {A} (maxlen : option Z) : res (list A) :=
  match maxlen with
  | Some m => if m <? 0 then Raise ValueError else Ok []
  | None => Ok []
  end.

(** [d.append(x)]: the item goes to the right end, and a bounded deque
    that has become longer than its bound drops its leftmost item. *)
Definition append {A} (maxlen : option Z) (d : list A) (x : A) : list A :=
  let d' := d ++ [x] in
  match maxlen with
  | Some m => if m <? Z.of_nat (length d') then tail d' else d'
  | None => d'
  end.

(** [d[i] = x]; negative indices count from the right end. *)
Definition setitem {A} (d : list A) (i : Z) (x : A) : res (list A) :=
  let n := Z.of_nat (length d) in
  let i' := if i <? 0 then i + n else i in
  if (0 <=? i') && (i' <? n) then Ok (<[Z.to_nat i' := x]> d)
  else Raise IndexError.

End Deque.

(** ** Binary floating point *)

Module Float.

(** [floor (log2 (n / d))]. *)
Definition ilog2 (n d : positive) : Z :=
  let e := Z.log2 (Z.pos n) - Z.log2 (Z.pos d) in
  if (if 0 <=? e then Z.pos d * 2 ^ e <=? Z.pos n
      else Z.pos d <=? Z.pos n * 2 ^ (- e))
  then e else e - 1.

(** The integer nearest to [num / den], ties to the even one
    ([0 <= num], [0 < den]). *)
Definition nearest_even (num den : Z) : Z :=
  let q := num / den in
  let r := num mod den in
  if 2 * r <? den then q
  else if den <? 2 * r then q + 1
  else if Z.even q then q else q + 1.

(** [n / d] rounded to [prec] significant bits, to nearest and ties to
    even; [2 ^ emin] is the smallest positive value (the spacing of the
    subnormal numbers).  No upper bound on the exponent is applied here. *)
Definition round_pos (prec emin : Z) (n d : positive) : Q :=
  let k := Z.max (ilog2 n d - (prec - 1)) emin in
  if 0 <=? k
  then inject_Z (nearest_even (Z.pos n) (Z.pos d * 2 ^ k) * 2 ^ k)
  else Qmake (nearest_even (Z.pos n * 2 ^ (- k)) (Z.pos d))
             (Z.to_pos (2 ^ (- k))).

Definition round (prec emin : Z) (x : Q) : Q :=
  match Qnum x with
  | Z0 => 0%Q
  | Zpos n => round_pos prec emin n (Qden x)
  | Zneg n => Qopp (round_pos prec emin n (Qden x))
  end.

(** IEEE 754 binary64 (Python's [float]). *)
Definition double (x : Q) : Q := round 53 (-1074) x.

(** A quotient of this size or more rounds to [2^1024] or more and has
    no double. *)
Definition overflow_bound : Z := 2 ^ 1024 - 2 ^ 970.
Definition double_overflow : Q := inject_Z overflow_bound.

(** IEEE 754 binary32 (TensorFlow's ['float32']). *)
Definition single (x : Q) : Q := round 24 (-149) x.

End Float.

(** The double nearest to [a / b]. *)
Definition double_div (a b : Z) : Qc :=
  Q2Qc (Float.double (inject_Z a / inject_Z b)).

(** Python's true division of two integers: the correctly rounded double,
    [ZeroDivisionError] for a zero divisor and [OverflowError] when the
    quotient is too large for a double. *)
Definition true_div {S} (a b : Z) : M S Qc :=
  if b =? 0 then raise ZeroDivisionError
  else if Qle_bool Float.double_overflow (Qabs (inject_Z a / inject_Z b))
       then raise OverflowError
       else ret (double_div a b).

(** ** class Reservoir *)

Module Reservoir.

Record t (A : Type) : Type := Build
  { maxlen : Z; i : Z; reservoir : list A }.
Arguments Build {A} _ _ _.
Arguments maxlen {A} _.
Arguments i {A} _.
Arguments reservoir {A} _.

Section Methods.
Context {A : Type}.

Definition init (maxlen : Z) : res (t A) :=
  Ok (Build maxlen 0 []).

Definition set_i (v : Z) : M (t A * World) unit :=
  fun '(self, w) => (Ok tt, (Build (maxlen self) v (reservoir self), w)).
Definition set_reservoir (d : list A) : M (t A * World) unit :=
  fun '(self, w) => (Ok tt, (Build (maxlen self) (i self) d, w)).
Definition self_ : M (t A * World) (t A) :=
  fun '(self, w) => (Ok self, (self, w)).
Definition lift_res {X} (r : res X) : M (t A * World) X :=
  match r with Ok x => ret x | Raise e => raise e end.

Definition append (item : A) : M (t A * World) unit :=
  self <~ self_ ;;
  set_i (i self + 1) ;;;
  self <~ self_ ;;
  if Z.of_nat (length (reservoir self)) <? maxlen self then
    set_reservoir (Deque.append None (reservoir self) item)
  else
    u <~ with_np (fun g => let (u, g') := NumpyRandom.rand g in (Ok u, g')) ;;
    p <~ true_div (maxlen self) (i self) ;;
    if bool_decide (u < p)%Qc then
      discard_idx <~ with_np (NumpyRandom.choice (maxlen self)) ;;
      d <~ lift_res (Deque.setitem (reservoir self) discard_idx item) ;;
      set_reservoir d
    else ret tt.

Definition sample (n : Z) : M (t A * World) (list A) :=
  self <~ self_ ;;
  with_py (Random.sample (reservoir self) n).

Definition len (self : t A) : Z := Z.of_nat (length (reservoir self)).

End Methods.
End Reservoir.

(** ** class CircularBuffer *)

Module CircularBuffer.

Record t (A : Type) : Type := Build
  { maxlen : option Z; buffer : list A }.
Arguments Build {A} _ _.
Arguments maxlen {A} _.
Arguments buffer {A} _.

Section Methods.
Context {A : Type}.

Definition init (maxlen : option Z) : res (t A) :=
  match Deque.new maxlen with
  | Ok d => Ok (Build maxlen d)
  | Raise e => Raise e
  end.

Definition append (item : A) : M (t A * World) unit :=
  fun '(self, w) =>
    (Ok tt, (Build (maxlen self)
                   (Deque.append (maxlen self) (buffer self) item), w)).

Definition sample (n : Z) : M (t A * World) (list A) :=
  fun '(self, w) => with_py (Random.sample (buffer self) n) (self, w).

Definition len (self : t A) : Z := Z.of_nat (length (buffer self)).

End Methods.
End CircularBuffer.

(** ** Tensors *)

Definition vec : Type := list Qc.
Definition mat : Type := list vec.

Definition Qcmax (a b : Qc) : Qc := if bool_decide (a <= b)%Qc then b else a.

Module TF.

Definition add (a b : vec) : vec := zip_with Qcplus a b.
Definition mul (a b : vec) : vec := zip_with Qcmult a b.
Definition sum (a : vec) : Qc := foldr Qcplus 0%Qc a.

Definition reduce_sum_axis1 (m : mat) : vec := map sum m.
Definition reduce_mean (a : vec) : Qc :=
  (sum a / Qc_of_Z (Z.of_nat (length a)))%Qc.

Definition one_hot (depth : Z) (k : Z) : vec :=
  map (fun j => if (0 <=? k) && (Z.of_nat j =? k) then 1%Qc else 0%Qc)
      (seq 0 (Z.to_nat depth)).

Definition relu (a : vec) : vec := map (Qcmax 0%Qc) a.

(** [x @ kernel] for one row [x]; [kernel] has one row per input. *)
Definition vecmat (units : nat) (x : vec) (kernel : mat) : vec :=
  foldr (fun '(xi, ki) acc => add (map (Qcmult xi) ki) acc)
        (replicate units 0%Qc) (zip x kernel).

(** Values of graph variables. *)
Inductive value : Type :=
  | Kernel (k : mat)
  | Bias (b : vec).

(** A session: the current value of every initialised variable. *)
Definition Session : Type := gmap string value.

(** [with tf.variable_scope(inner)] inside scope [outer]. *)
Definition variable_scope (outer inner : string) : string :=
  outer +:+ "/" +:+ inner.

(** [tf.layers.dense]: the two variables of layer [layer] in [scope]. *)
Definition kernel_name (scope layer : string) : string :=
  variable_scope (variable_scope scope layer) "kernel:0".
Definition bias_name (scope layer : string) : string :=
  variable_scope (variable_scope scope layer) "bias:0".

Definition dense_row (k : mat) (b : vec) (activation : vec -> vec)
    (x : vec) : vec :=
  activation (add (vecmat (length b) x k) b).

Definition dense (sess : Session) (scope layer : string)
    (activation : vec -> vec) : res (vec -> vec) :=
  match sess !! kernel_name scope layer, sess !! bias_name scope layer with
  | Some (Kernel k), Some (Bias b) => Ok (dense_row k b activation)
  | _, _ => Raise FailedPreconditionError
  end.

(** [tf.get_collection(GLOBAL_VARIABLES, scope=...)]: the collection is
    filtered with [re.match(scope, v.name)]; for a pattern without
    special characters that is a test for a prefix of the full name. *)
Definition get_collection (collection : list string) (scope : string)
    : list string :=
  filter (fun v => String.prefix scope v = true) collection.

(** [sess.run] of a list of [target.assign(source)] operations. *)
Fixpoint run_assigns (ops : list (string * string)) : M Session unit :=
  match ops with
  | [] => ret tt
  | (t, c) :: ops' =>
      fun sess =>
        match sess !! c with
        | Some v => run_assigns ops' (<[t := v]> sess)
        | None => (Raise FailedPreconditionError, sess)
        end
  end.

End TF.

(** ** float32 tensors *)

Module F32.

(** A [float32] value: a finite number, an infinity or NaN.  (The two
    zeros are not told apart; they compare equal.) *)
Inductive t : Type :=
  | Finite (q : Qc)
  | PInf
  | NInf
  | NaN.

(** Conversion to [float32], and the rounding after each operation: the
    nearest [float32], an infinity when that would be [2^128] or more. *)
Definition rnd (x : Qc) : t :=
  let y := Float.single x in
  if Qle_bool (inject_Z (2 ^ 128)) (Qabs y)
  then (if Qle_bool 0 y then PInf else NInf)
  else Finite (Q2Qc y).


(** A finite value as a fraction. *)
Definition to_Q (a : t) : option Q :=
  match a with Finite q => Some (this q) | _ => None end.

Definition neg (a : t) : t :=
  match a with
  | Finite q => Finite (- q)
  | PInf => NInf
  | NInf => PInf
  | NaN => NaN
  end.

Definition add (a b : t) : t :=
  match a, b with
  | NaN, _ | _, NaN => NaN
  | PInf, NInf | NInf, PInf => NaN
  | PInf, _ | _, PInf => PInf
  | NInf, _ | _, NInf => NInf
  | Finite x, Finite y => rnd (x + y)
  end.

Definition sub (a b : t) : t := add a (neg b).

(** The product of an infinity (positive or not) and the finite [q]:
    NaN for [q = 0]. *)
Definition scaled_inf (positive : bool) (q : Qc) : t :=
  match (0 ?= q)%Qc with
  | Eq => NaN
  | Lt => if positive then PInf else NInf
  | Gt => if positive then NInf else PInf
  end.

Definition mul (a b : t) : t :=
  match a, b with
  | NaN, _ | _, NaN => NaN
  | Finite x, Finite y => rnd (x * y)
  | Finite x, PInf | PInf, Finite x => scaled_inf true x
  | Finite x, NInf | NInf, Finite x => scaled_inf false x
  | PInf, PInf | NInf, NInf => PInf
  | PInf, NInf | NInf, PInf => NInf
  end.

(** [a < b]; false whenever NaN is involved. *)
Definition ltb (a b : t) : bool :=
  match a, b with
  | NaN, _ | _, NaN => false
  | _, NInf | PInf, _ => false
  | NInf, _ | _, PInf => true
  | Finite x, Finite y => bool_decide (x < y)%Qc
  end.

Definition max2 (a b : t) : t := if ltb a b then b else a.

(** [tf.reduce_max] of one row ([-inf] for an empty row).  The rows it
    is applied to come out of [rnd] and hold no NaN. *)
Definition row_max (row : list t) : t := foldl max2 NInf row.

Definition vadd (a b : list t) : list t := zip_with add a b.
Definition vsub (a b : list t) : list t := zip_with sub a b.
Definition vmul (a b : list t) : list t := zip_with mul a b.
Definition square (a : list t) : list t := map (fun x => mul x x) a.

(** Sums are taken from left to right; TensorFlow does not fix the order
    of a reduction, and another order may round differently. *)
Definition sum (a : list t) : t := foldl add (Finite 0%Qc) a.

(** [tf.reduce_mean]: the sum divided by the number of elements (NaN for
    none, and whatever the sum is when it is not finite). *)
Definition reduce_mean (a : list t) : t :=
  match a with
  | [] => NaN
  | _ =>
      match sum a with
      | Finite s => rnd (s / Qc_of_Z (Z.of_nat (length a)))
      | other => other
      end
  end.

Definition one_hot (depth : Z) (k : Z) : list t :=
  map (fun j => if (0 <=? k) && (Z.of_nat j =? k)
                then Finite 1%Qc else Finite 0%Qc)
      (seq 0 (Z.to_nat depth)).

End F32.

(** ** Records held by the memories *)

(** The dictionaries of the replay memory, as [train_q_network] reads
    them: two vectors of numbers, an int action (in the range of the
    [int32] placeholder it is fed to), a finite float reward and a
    bool. *)
Record transition : Type := Transition
  { state : vec; action : Z; next_state : vec; reward : Qc; terminal : bool }.

Record state_action_pair : Type := StateAction
  { sa_state : vec; sa_action : Z }.

(** A numpy array as the prediction methods see it: its shape and its
    rows (meaningful for a two-dimensional array). *)
Record ndarray : Type := NdArray { shape : list Z; rows : mat }.

(** [np.array(vectors)] for a list of vectors: two-dimensional when there
    is at least one vector and all have the same length; one-dimensional
    otherwise (of shape [(0,)] for the empty list, an array of objects for
    vectors of different lengths). *)
Definition np_array (vectors : list vec) : ndarray :=
  match vectors with
  | [] => NdArray [0] []
  | v :: vs =>
      if forallb (fun u => (length u =? length v)%nat) vs
      then NdArray [Z.of_nat (length vectors); Z.of_nat (length v)] vectors
      else NdArray [Z.of_nat (length vectors)] vectors
  end.

(** ** class Agent *)

Module Agent.

(** A network as [create_q_network] returns it: the variables it created,
    in creation order, the width of its input placeholder (of shape
    [[None, input_dim]]), and its output as a function of the session and
    of the rows fed to the placeholder. *)
Record network : Type := Network
  { net_variables : list string;
    input_width : Z;
    output : TF.Session -> mat -> res mat }.

(** Feeding an array to the input placeholder: [sess.run] refuses, with
    [ValueError], an array whose shape is not [(n, input_dim)]. *)
Definition feed_input (net : network) (a : ndarray) : res mat :=
  match shape a with
  | [_; d] => if d =? input_width net then Ok (rows a) else Raise ValueError
  | _ => Raise ValueError
  end.

Definition hidden_layers : list string := ["dense"; "dense_1"].
Definition output_layer : string := "dense_2".

Definition layer_variables (scope : string) (layer : string) : list string :=
  [TF.kernel_name scope layer; TF.bias_name scope layer].

(** [for i in range(num_hidden): hidden_layer = dense(hidden_layer, ..., relu)] *)
Fixpoint hidden_stack (sess : TF.Session) (scope : string)
    (layers : list string) : res (vec -> vec) :=
  match layers with
  | [] => Ok (fun x => x)
  | l :: ls =>
      match TF.dense sess scope l TF.relu, hidden_stack sess scope ls with
      | Ok f, Ok g => Ok (fun x => g (f x))
      | Raise e, _ | _, Raise e => Raise e
      end
  end.

(** The hidden layers, then the output layer with [final_activation]. *)
Definition forward (scope : string) (final_activation : vec -> vec)
    (sess : TF.Session) : res (vec -> vec) :=
  match hidden_stack sess scope hidden_layers,
        TF.dense sess scope output_layer final_activation with
  | Ok h, Ok o => Ok (fun x => o (h x))
  | Raise e, _ | _, Raise e => Raise e
  end.

Definition create_network (scope : string) (input_dim : Z)
    (final_activation : vec -> vec) : network :=
  {| net_variables :=
       flat_map (layer_variables scope) (hidden_layers ++ [output_layer]);
     input_width := input_dim;
     output := fun sess x =>
       match forward scope final_activation sess with
       | Ok f => Ok (map f x)
       | Raise e => Raise e
       end |}.

Section WithSoftmax.
(** [tf.nn.softmax] on one row; exponentials are not rational, so the
    function is a parameter of the development. *)
Variable softmax : vec -> vec.

Definition create_q_network (outer scope : string) (input_dim : Z)
    : network :=
  create_network (TF.variable_scope outer scope) input_dim (fun x => x).

Definition create_policy_network (outer scope : string) (input_dim : Z)
    : network :=
  create_network (TF.variable_scope outer scope) input_dim softmax.

Record t : Type := Build
  { replay_memory : CircularBuffer.t transition;
    supervised_memory : Reservoir.t state_action_pair;
    input_dim : Z;
    action_dim : Z;
    name : string;
    q_network : network;
    target_q_network : network;
    policy_network : network;
    update_ops : list (string * string) }.

(** The assignments built in [__init__]: the graph's global variables
    are those of the three networks, in creation order. *)
Definition make_update_ops (q target policy : network)
    : list (string * string) :=
  let global_variables :=
    net_variables q ++ net_variables target ++ net_variables policy in
  let current_vars := TF.get_collection global_variables "current_q" in
  let target_vars := TF.get_collection global_variables "target_q" in
  zip target_vars current_vars.

Definition init (name : string) (input_dim action_dim : Z)
    (max_replay : option Z) (max_supervised : Z) : res t :=
  match CircularBuffer.init max_replay, Reservoir.init max_supervised with
  | Ok replay, Ok supervised =>
      let outer := "agent_" +:+ name in
      let q := create_q_network outer "current_q" input_dim in
      let target := create_q_network outer "target_q" input_dim in
      let policy := create_policy_network outer "policy" input_dim in
      Ok (Build replay supervised input_dim action_dim name
            q target policy (make_update_ops q target policy))
  | Raise e, _ | _, Raise e => Raise e
  end.

(** State of a call on an agent: the agent, the session passed in, and
    the random generators. *)
Definition St : Type := t * TF.Session * World.

Definition lift_res {X} (r : res X) : M TF.Session X :=
  fun sess => (r, sess).

(** [state.shape[1]] *)
Definition shape_at (a : ndarray) (k : nat) : M TF.Session Z :=
  match shape a !! k with
  | Some d => ret d
  | None => raise IndexError
  end.

Definition predict_q (self : t) (state : ndarray) : M TF.Session mat :=
  assert (Z.of_nat (length (shape state)) =? 2) ;;;
  d <~ shape_at state 1 ;;
  assert (d =? input_dim self) ;;;
  sess <~ get ;;
  fed <~ lift_res (feed_input (q_network self) state) ;;
  lift_res (output (q_network self) sess fed).

Definition predict_policy (self : t) (state : ndarray) : M TF.Session mat :=
  assert (Z.of_nat (length (shape state)) =? 2) ;;;
  d <~ shape_at state 1 ;;
  assert (d =? input_dim self) ;;;
  sess <~ get ;;
  fed <~ lift_res (feed_input (policy_network self) state) ;;
  lift_res (output (policy_network self) sess fed).

Definition update_target_network (self : t) : M TF.Session unit :=
  TF.run_assigns (update_ops self).

(** The feed of [train_q_network]: the arrays built from the minibatch,
    the rewards and the flags as the [float32] values they are fed as. *)
Record q_feed : Type := QFeed
  { feed_reward : list F32.t;
    feed_action : list Z;
    feed_not_terminals : list F32.t;
    feed_states : ndarray;
    feed_next_states : ndarray }.

(** [np.array([not t for t in terminals]).astype('float32')] *)
Definition not_terminal (t : bool) : F32.t :=
  if negb t then F32.Finite 1%Qc else F32.Finite 0%Qc.

Definition make_q_feed (minibatch : list transition) : q_feed :=
  let states := np_array (map state minibatch) in
  let actions := map action minibatch in
  let next_states := np_array (map next_state minibatch) in
  let rewards := map reward minibatch in
  let terminals := map terminal minibatch in
  let not_terminals := map not_terminal terminals in
  QFeed (map F32.rnd rewards) actions not_terminals states next_states.

(** [sess.run] validates the whole [feed_dict] before it computes
    anything: the rows fed to the current and to the target network. *)
Definition check_feed (self : t) (feed : q_feed) : res (mat * mat) :=
  match feed_input (q_network self) (feed_states feed) with
  | Ok states =>
      match feed_input (target_q_network self) (feed_next_states feed) with
      | Ok next_states => Ok (states, next_states)
      | Raise e => Raise e
      end
  | Raise e => Raise e
  end.

(** A network's output tensor as the [float32] values the loss is
    computed from. *)
Definition output32 (net : network) (sess : TF.Session) (fed : mat)
    : res (list (list F32.t)) :=
  match output net sess fed with
  | Ok out => Ok (map (map F32.rnd) out)
  | Raise e => Raise e
  end.

(** The graph tensors of [__init__], evaluated in a session under a
    feed. *)
Definition next_q (self : t) (sess : TF.Session) (feed : q_feed)
    : res (list F32.t) :=
  match check_feed self feed with
  | Ok (_, next_states) =>
      match output32 (target_q_network self) sess next_states with
      | Ok target_out =>
          Ok (F32.vadd (feed_reward feed)
                (F32.vmul (feed_not_terminals feed)
                          (map F32.row_max target_out)))
      | Raise e => Raise e
      end
  | Raise e => Raise e
  end.

Definition q_value (self : t) (sess : TF.Session) (feed : q_feed)
    : res (list F32.t) :=
  match check_feed self feed with
  | Ok (states, _) =>
      match output32 (q_network self) sess states with
      | Ok q_out =>
          let one_hot_action :=
            map (F32.one_hot (action_dim self)) (feed_action feed) in
          Ok (map F32.sum (zip_with F32.vmul one_hot_action q_out))
      | Raise e => Raise e
      end
  | Raise e => Raise e
  end.

Definition q_loss (self : t) (sess : TF.Session) (feed : q_feed)
    : res F32.t :=
  match next_q self sess feed, q_value self sess feed with
  | Ok nq, Ok qv => Ok (F32.reduce_mean (F32.square (F32.vsub nq qv)))
  | Raise e, _ | _, Raise e => Raise e
  end.

(** The optimizer step of [q_trainer]: some update of the session's
    variables computed from the feed.  Its arithmetic is not needed
    here and stays a parameter. *)
Variable q_trainer : t -> q_feed -> TF.Session -> TF.Session.

Definition on_replay {X} (m : M (CircularBuffer.t transition * World) X)
    : M St X :=
  fun '(self, sess, w) =>
    let '(r, (replay, w')) := m (replay_memory self, w) in
    (r, (Build replay (supervised_memory self) (input_dim self)
           (action_dim self) (name self) (q_network self)
           (target_q_network self) (policy_network self)
           (update_ops self), sess, w')).

Definition on_supervised {X}
    (m : M (Reservoir.t state_action_pair * World) X) : M St X :=
  fun '(self, sess, w) =>
    let '(r, (supervised, w')) := m (supervised_memory self, w) in
    (r, (Build (replay_memory self) supervised (input_dim self)
           (action_dim self) (name self) (q_network self)
           (target_q_network self) (policy_network self)
           (update_ops self), sess, w')).

Definition append_replay_memory (transitions : list transition)
    : M St unit :=
  for_each transitions (fun tr => on_replay (CircularBuffer.append tr)).

Definition append_supervised_memory (pairs : list state_action_pair)
    : M St unit :=
  for_each pairs (fun p => on_supervised (Reservoir.append p)).

(** [sess.run([self.q_loss, self.q_trainer], feed_dict=...)] *)
Definition run_q_step (feed : q_feed) : M St F32.t :=
  fun '(self, sess, w) =>
    match q_loss self sess feed with
    | Ok loss => (Ok loss, (self, q_trainer self feed sess, w))
    | Raise e => (Raise e, (self, sess, w))
    end.

Definition train_q_network (batch_size : Z) : M St F32.t :=
  minibatch <~ on_replay (CircularBuffer.sample batch_size) ;;
  run_q_step (make_q_feed minibatch).

End WithSoftmax.
End Agent.

(** ** Drivers and invariants used to state the properties *)

(** The full branch: what happens is decided by the admission draw [u]
    and, when the item is admitted, by the next raw draw on the tape. *)
Definition full_outcome {A} (s : Reservoir.t A) (w : World) (x : A) : res unit * (Reservoir.t A * World) :=
  let c := Reservoir.maxlen s in
  let n := Reservoir.i s + 1 in
  let (u, g1) := NumpyRandom.rand (np_random w) in
  if bool_decide (u < double_div c n)%Qc then
    let slot := tape g1 (pos g1) mod c in
    (Ok tt, (Reservoir.Build c n (<[Z.to_nat slot := x]> (Reservoir.reservoir s)),
             World_ (Rng (tape g1) (S (pos g1))) (py_random w)))
  else
    (Ok tt, (Reservoir.Build c n (Reservoir.reservoir s),
             World_ g1 (py_random w))).


(** The state invariant of a reservoir that has been offered [i] items. *)
Definition reservoir_inv {A} (s : Reservoir.t A) : Prop :=
  0 <= Reservoir.i s
  /\ Z.of_nat (length (Reservoir.reservoir s))
     = Z.min (Reservoir.i s) (Z.max (Reservoir.maxlen s) 0).

(** What a caller does with a buffer: append an item, or ask for a sample
    and go on whatever the answer was (a raised exception is caught). *)
Inductive op (A : Type) : Type :=
  | Append (x : A)
  | Sample (n : Z).
Arguments Append {A} x.
Arguments Sample {A} n.

Definition try {S A} (m : M S A) : M S (res A) :=
  fun s => let (r, s') := m s in (Ok r, s').

Fixpoint appended {A} (ops : list (op A)) : list A :=
  match ops with
  | [] => []
  | Append x :: ops' => x :: appended ops'
  | Sample _ :: ops' => appended ops'
  end.

Fixpoint drive {A} (ops : list (op A))
  : M (CircularBuffer.t A * World) (list (res (list A))) :=
  match ops with
  | [] => ret []
  | Append x :: ops' => CircularBuffer.append x ;;; drive ops'
  | Sample n :: ops' =>
      r <~ try (CircularBuffer.sample n) ;;
      rs <~ drive ops' ;;
      ret (r :: rs)
  end.

(** The last [c] items of [l]. *)
Definition keep_last {A} (c : Z) (l : list A) : list A :=
  drop (length l - Z.to_nat c) l.

(** ** A concrete agent and session *)

Module Example.

(** Values for the six variables of a value network with [input_dim = 1],
    [hidden_dim = 64] and [action_dim = 1]: all kernels and hidden biases
    are zero, the output bias is [out_bias]. *)
Definition zeros (r c : nat) : mat := replicate r (replicate c 0%Qc).

Definition q_values (scope : string) (out_bias : Qc)
    : list (string * TF.value) :=
  [ (TF.kernel_name scope "dense", TF.Kernel (zeros 1 64));
    (TF.bias_name scope "dense", TF.Bias (replicate 64 0%Qc));
    (TF.kernel_name scope "dense_1", TF.Kernel (zeros 64 64));
    (TF.bias_name scope "dense_1", TF.Bias (replicate 64 0%Qc));
    (TF.kernel_name scope "dense_2", TF.Kernel (zeros 64 1));
    (TF.bias_name scope "dense_2", TF.Bias [out_bias]) ].

(** A session in which the current value network answers [1] and the
    target network answers [0] on every state. *)
Definition sess : TF.Session :=
  list_to_map (q_values "agent_a/current_q" 1%Qc
               ++ q_values "agent_a/target_q" 0%Qc).

(** [Agent('a', input_dim=1, action_dim=1, max_replay=3, max_supervised=3)];
    the softmax of the policy network plays no role and is the identity. *)
Definition agent : res Agent.t :=
  Agent.init (fun x => x) "a" 1 1 (Some 3) 3.

Definition fractions (m : mat) : list (list Q) := map (map this) m.

(** Generators whose every raw draw is [0]. *)
Definition world : World :=
  World_ (Rng (fun _ => 0) 0) (Rng (fun _ => 0) 0).


(** [Agent('b', input_dim=1, action_dim=2, max_replay=3, max_supervised=3)]
    and a session in which its current network answers [(1, 2)] and its
    target network answers [(3, 7)] on every state. *)
Definition agent2 : res Agent.t :=
  Agent.init (fun x => x) "b" 1 2 (Some 3) 3.






End Example.

(** ** A reservoir under appends and samples *)

(** The driver of [drive], for a reservoir. *)
Fixpoint drive_reservoir {A} (ops : list (op A))
  : M (Reservoir.t A * World) (list (res (list A))) :=
  match ops with
  | [] => ret []
  | Append x :: ops' => Reservoir.append x ;;; drive_reservoir ops'
  | Sample n :: ops' =>
      r <~ try (Reservoir.sample n) ;;
      rs <~ drive_reservoir ops' ;;
      ret (r :: rs)
  end.

(** ** class Agent: the policy side *)

Module AgentOps.

(** The agent with one of its memories replaced (what an in-place change
    of that memory leaves behind). *)
Definition set_replay_memory (self : Agent.t)
    (replay : CircularBuffer.t transition) : Agent.t :=
  Agent.Build replay (Agent.supervised_memory self) (Agent.input_dim self)
    (Agent.action_dim self) (Agent.name self) (Agent.q_network self)
    (Agent.target_q_network self) (Agent.policy_network self)
    (Agent.update_ops self).

Definition set_supervised_memory (self : Agent.t)
    (supervised : Reservoir.t state_action_pair) : Agent.t :=
  Agent.Build (Agent.replay_memory self) supervised (Agent.input_dim self)
    (Agent.action_dim self) (Agent.name self) (Agent.q_network self)
    (Agent.target_q_network self) (Agent.policy_network self)
    (Agent.update_ops self).

(** The feed of [train_policy_network]. *)
Record policy_feed : Type := PolicyFeed
  { pf_states : ndarray;
    pf_action : list Z }.

Definition make_policy_feed (minibatch : list state_action_pair)
    : policy_feed :=
  let states := np_array (map sa_state minibatch) in
  let actions := map sa_action minibatch in
  PolicyFeed states actions.

(** [tf.reduce_sum(policy_network['output'] * one_hot_action, axis=1)] *)
Definition policy_for_actions (self : Agent.t) (sess : TF.Session)
    (feed : policy_feed) : res vec :=
  match Agent.feed_input (Agent.policy_network self) (pf_states feed) with
  | Ok states =>
      match Agent.output (Agent.policy_network self) sess states with
      | Ok policy_out =>
          let one_hot_action :=
            map (TF.one_hot (Agent.action_dim self)) (pf_action feed) in
          Ok (TF.reduce_sum_axis1
                (zip_with TF.mul policy_out one_hot_action))
      | Raise e => Raise e
      end
  | Raise e => Raise e
  end.

Section WithLog.
(** [tf.log] is not rational and the optimizer step of [policy_trainer]
    is not needed here; both are parameters. *)
Variable log : Qc -> Qc.
Variable policy_trainer : Agent.t -> policy_feed -> TF.Session -> TF.Session.

Definition policy_loss (self : Agent.t) (sess : TF.Session)
    (feed : policy_feed) : res Qc :=
  match policy_for_actions self sess feed with
  | Ok p => Ok (TF.reduce_mean (map (fun x => - log x)%Qc p))
  | Raise e => Raise e
  end.

(** [sess.run([self.policy_loss, self.policy_trainer], feed_dict=...)] *)
Definition run_policy_step (feed : policy_feed) : M Agent.St Qc :=
  fun '(self, sess, w) =>
    match policy_loss self sess feed with
    | Ok loss => (Ok loss, (self, policy_trainer self feed sess, w))
    | Raise e => (Raise e, (self, sess, w))
    end.

Definition train_policy_network (batch_size : Z) : M Agent.St Qc :=
  minibatch <~ Agent.on_supervised (Reservoir.sample batch_size) ;;
  run_policy_step (make_policy_feed minibatch).

End WithLog.

(** [ndarray.ravel()] of a two-dimensional array. *)
Definition ravel (m : mat) : vec := concat m.

(** [get_strategy]: [states] is the dictionary's [items()], in order; the
    inner dictionary [{i: policy[i] for i in range(len(policy))}] is
    [map_seq 0 policy]. *)
Fixpoint get_strategy_loop `{Countable K} (self : Agent.t)
    (items : list (K * vec)) (strategy : gmap K (gmap nat Qc))
    : M TF.Session (gmap K (gmap nat Qc)) :=
  match items with
  | [] => ret strategy
  | (info_set_id, state) :: rest =>
      out <~ Agent.predict_policy self
               (NdArray [1; Z.of_nat (length state)] [state]) ;;
      let policy := ravel out in
      get_strategy_loop self rest (<[info_set_id := map_seq 0 policy]> strategy)
  end.

Definition get_strategy `{Countable K} (self : Agent.t)
    (states : list (K * vec)) : M TF.Session (gmap K (gmap nat Qc)) :=
  get_strategy_loop self states ∅.

End AgentOps.

(** Two sessions that give the same values to the variables of the
    network in [scope]. *)
Definition agree_on (scope : string) (sess sess' : TF.Session) : Prop :=
  forall layer, layer ∈ Agent.hidden_layers ++ [Agent.output_layer] ->
    sess !! TF.kernel_name scope layer = sess' !! TF.kernel_name scope layer
    /\ sess !! TF.bias_name scope layer = sess' !! TF.bias_name scope layer.

(** [Example.sess] with values for the policy network as well, and with
    another value for one variable of the target network. *)
Definition full_session : TF.Session :=
  list_to_map (Example.q_values "agent_a/current_q" 1%Qc
               ++ Example.q_values "agent_a/target_q" 0%Qc
               ++ Example.q_values "agent_a/policy" 0%Qc).

Definition retargeted_session : TF.Session :=
  <[TF.bias_name "agent_a/target_q" "dense_2" := TF.Bias [Qc_of_Z 5]]>
    Example.sess.


(** The agent of [Example] with one terminal transition of reward [5] in
    its replay memory. *)
Definition stocked_agent : res Agent.t :=
  match Example.agent with
  | Ok self =>
      Ok (AgentOps.set_replay_memory self
            (CircularBuffer.Build (Some 3)
               [Transition [0%Qc] 0 [0%Qc] (Qc_of_Z 5) true]))
  | Raise e => Raise e
  end.

(** One round of the loop of [get_strategy], once the policy network's
    row function [fp] is known: the entry of the information set is
    (over)written. *)
Definition record_policy `{Countable K} (fp : vec -> vec)
    (acc : gmap K (gmap nat Qc)) (item : K * vec) : gmap K (gmap nat Qc) :=
  <[item.1 := map_seq 0 (fp item.2)]> acc.
(** * Properties *)

(** ** Library facts: the random generators *)

Lemma randbelow_lt (m : nat) (g : rng) :
  (0 < m)%nat -> (fst (Random.randbelow m g) < m)%nat.
Proof.
  intros Hm. unfold Random.randbelow, next_raw. simpl.
  pose proof (Z.mod_pos_bound (tape g (pos g)) (Z.of_nat m)). lia.
Qed.

Lemma Q2Qc_unit_interval (z : Z) (d : positive) :
  0 <= z < Z.pos d -> (0 <= Q2Qc (z # d) /\ Q2Qc (z # d) < 1)%Qc.
Proof.
  intros Hz. unfold Qcle, Qclt. cbn [this Q2Qc].
  pose proof (Qred_correct (z # d)) as E.
  split.
  - rewrite E. unfold Qle. simpl. lia.
  - rewrite E. unfold Qlt. simpl. lia.
Qed.

Lemma rand_range (g : rng) :
  (0 <= fst (NumpyRandom.rand g) /\ fst (NumpyRandom.rand g) < 1)%Qc.
Proof.
  unfold NumpyRandom.rand, next_raw. cbn [fst].
  apply Q2Qc_unit_interval, Z.mod_pos_bound. done.
Qed.

(** Overwriting position [j] (which held [x]) by [y] trades one [x] for
    one [y]. *)
Lemma insert_swap_Permutation {A} (q : list A) (j : nat) (x y : A) :
  q !! j = Some x -> x :: <[j := y]> q ≡ₚ y :: q.
Proof.
  revert j. induction q as [|a q IH]; intros [|j] Hj; simplify_eq/=.
  - apply perm_swap.
  - rewrite (perm_swap a x). rewrite (IH _ Hj). apply perm_swap.
Qed.

(** One round of the selection loop removes the chosen item from the live
    part [take m pool] of the pool. *)
Lemma select_round_Permutation {A} (pool : list A) (m j : nat) (x y : A) :
  (j < m)%nat -> (m <= length pool)%nat ->
  pool !! j = Some x -> pool !! (m - 1)%nat = Some y ->
  take m pool ≡ₚ x :: take (m - 1) (<[j := y]> pool).
Proof.
  intros Hj Hm Hx Hy.
  replace m with (S (m - 1)) at 1 by lia.
  rewrite (take_S_r _ _ y) by done.
  destruct (decide (j = m - 1)%nat) as [->|Hne].
  - rewrite take_insert_ge by lia. simplify_eq.
    by rewrite Permutation_app_comm.
  - rewrite take_insert_lt by lia.
    rewrite insert_swap_Permutation.
    + by rewrite Permutation_app_comm.
    + rewrite lookup_take_lt by lia. done.
Qed.

Lemma select_spec {A} (k : nat) : forall (pool : list A) (m : nat) (g : rng),
  (k <= m)%nat -> (m <= length pool)%nat ->
  exists r g', Random.select pool m k g = (Ok r, g')
               /\ length r = k /\ r ⊆+ take m pool.
Proof.
  induction k as [|k IH]; intros pool m g Hk Hm; cbn [Random.select].
  - exists [], g. split_and!; [done..|]. apply submseteq_nil_l.
  - destruct (Random.randbelow m g) as [j g1] eqn:Hrb.
    assert (Hj : (j < m)%nat).
    { pose proof (randbelow_lt m g ltac:(lia)) as H. by rewrite Hrb in H. }
    destruct (lookup_lt_is_Some_2 pool j ltac:(lia)) as [x Hx].
    destruct (lookup_lt_is_Some_2 pool (m - 1) ltac:(lia)) as [y Hy].
    rewrite Hx, Hy.
    destruct (IH (<[j := y]> pool) (m - 1)%nat g1) as (r & g2 & -> & Hlen & Hsub).
    { lia. } { rewrite length_insert. lia. }
    exists (x :: r), g2. split_and!; [done | simpl; lia |].
    rewrite (select_round_Permutation pool m j x y) by done.
    by apply submseteq_skip.
Qed.

(** [random.sample] draws without replacement whenever [0 <= k <= len]. *)
Lemma random_sample_ok {A} (population : list A) (k : Z) (g : rng) :
  0 <= k <= Z.of_nat (length population) ->
  exists r g', Random.sample population k g = (Ok r, g')
               /\ Z.of_nat (length r) = k /\ r ⊆+ population.
Proof.
  intros Hk. unfold Random.sample.
  replace ((0 <=? k) && (k <=? Z.of_nat (length population))) with true
    by (symmetry; apply andb_true_intro; split; lia).
  destruct (select_spec (Z.to_nat k) population (length population) g)
    as (r & g' & Heq & Hlen & Hsub); [lia | lia |].
  exists r, g'. split_and!; [done | lia |].
  by rewrite firstn_all in Hsub.
Qed.

Lemma random_sample_too_large {A} (population : list A) (k : Z) (g : rng) :
  Z.of_nat (length population) < k ->
  Random.sample population k g = (Raise ValueError, g).
Proof.
  intros Hk. unfold Random.sample.
  replace (k <=? Z.of_nat (length population)) with false by lia.
  by rewrite andb_false_r.
Qed.

Lemma submseteq_NoDup {A} (l k : list A) : l ⊆+ k -> NoDup k -> NoDup l.
Proof.
  intros Hsub Hk. apply submseteq_Permutation in Hsub as [k' Hk'].
  rewrite Hk' in Hk. by apply NoDup_app in Hk as [? _].
Qed.

(** ** Python floats *)

Lemma nearest_even_nonneg (num den : Z) :
  0 <= num -> 0 < den -> 0 <= Float.nearest_even num den.
Proof.
  intros Hn Hd. unfold Float.nearest_even.
  pose proof (Z.div_pos num den Hn Hd).
  repeat case_match; lia.
Qed.

Lemma round_pos_nonneg (prec emin : Z) (n d : positive) :
  (0 <= Float.round_pos prec emin n d)%Q.
Proof.
  unfold Float.round_pos.
  set (k := Z.max (Float.ilog2 n d - (prec - 1)) emin).
  destruct (Z.leb_spec 0 k) as [Hk | Hk]; unfold Qle, inject_Z;
    cbn [Qnum Qden]; rewrite !Z.mul_1_r.
  - apply Z.mul_nonneg_nonneg; [apply nearest_even_nonneg |]; lia.
  - apply nearest_even_nonneg; lia.
Qed.

Lemma round_nonpos (prec emin : Z) (x : Q) :
  Qnum x <= 0 -> (Float.round prec emin x <= 0)%Q.
Proof.
  intros Hx. unfold Float.round. destruct (Qnum x) as [|n|n]; [done | lia |].
  pose proof (round_pos_nonneg prec emin n (Qden x)) as Hp.
  apply Qopp_le_compat in Hp. exact Hp.
Qed.

Lemma double_div_nonpos (c n : Z) :
  c <= 0 -> 0 < n -> (double_div c n <= 0)%Qc.
Proof.
  intros Hc Hn. unfold double_div, Qcle. cbn [this Q2Qc].
  pose proof (Qred_correct (Float.double (inject_Z c / inject_Z n))) as E.
  rewrite E. apply round_nonpos.
  destruct n as [|p|p]; try lia. cbn. lia.
Qed.

Lemma overflow_bound_pos : 1 <= Float.overflow_bound.
Proof. by vm_compute. Qed.

(** The test of [true_div] for a positive divisor, on integers. *)
Lemma true_div_overflows (a b : Z) :
  0 < b ->
  Qle_bool Float.double_overflow (Qabs (inject_Z a / inject_Z b))
  = (Float.overflow_bound * b <=? Z.abs a).
Proof.
  intros Hb. destruct b as [|p|p]; try lia.
  unfold Float.double_overflow, Qle_bool, Qdiv, Qmult, Qinv, Qabs, inject_Z.
  cbn [Qnum Qden]. rewrite !Z.mul_1_r, Pos.mul_1_l. reflexivity.
Qed.

Lemma true_div_ok {S} (a b : Z) (s : S) :
  0 < b -> Z.abs a < Float.overflow_bound * b ->
  true_div a b s = (Ok (double_div a b), s).
Proof.
  intros Hb Hfit. unfold true_div.
  destruct (Z.eqb_spec b 0); [lia |].
  rewrite true_div_overflows by done.
  destruct (Z.leb_spec (Float.overflow_bound * b) (Z.abs a)); [lia | done].
Qed.

Lemma true_div_raises {S} (a b : Z) (s : S) :
  0 < b -> Float.overflow_bound * b <= Z.abs a ->
  true_div a b s = (Raise OverflowError, s).
Proof.
  intros Hb Hbig. unfold true_div.
  destruct (Z.eqb_spec b 0); [lia |].
  rewrite true_div_overflows by done.
  destruct (Z.leb_spec (Float.overflow_bound * b) (Z.abs a)); [done | lia].
Qed.

(** ** Reservoir: one append *)

Section ReservoirStep.
Context {A : Type}.
Implicit Types (s : Reservoir.t A) (w : World) (x : A).

(** While there is room the item is appended and no draw is made. *)
Lemma reservoir_append_room s w x :
  Z.of_nat (length (Reservoir.reservoir s)) < Reservoir.maxlen s ->
  Reservoir.append x (s, w)
  = (Ok tt, (Reservoir.Build (Reservoir.maxlen s) (Reservoir.i s + 1)
               (Reservoir.reservoir s ++ [x]), w)).
Proof.
  intros Hlt. unfold Reservoir.append, bind, Reservoir.self_, Reservoir.set_i,
    Reservoir.set_reservoir. cbn.
  destruct (Z.ltb_spec (Z.of_nat (length (Reservoir.reservoir s)))
              (Reservoir.maxlen s)); [done | lia].
Qed.

(** Without room, and with a quotient [maxlen / i] that has a double, the
    append is the admission test of [full_outcome]. *)
Lemma reservoir_append_full s w x :
  Reservoir.maxlen s <= Z.of_nat (length (Reservoir.reservoir s)) ->
  0 <= Reservoir.i s ->
  Z.abs (Reservoir.maxlen s) < Float.overflow_bound * (Reservoir.i s + 1) ->
  Reservoir.append x (s, w) = full_outcome s w x.
Proof.
  intros Hfull Hi Hfit. unfold full_outcome.
  unfold Reservoir.append, bind, Reservoir.self_, Reservoir.set_i,
    Reservoir.set_reservoir, with_np. cbn.
  destruct (Z.ltb_spec (Z.of_nat (length (Reservoir.reservoir s)))
              (Reservoir.maxlen s)); [lia |].
  pose proof (rand_range (np_random w)) as [Hu0 _].
  destruct (NumpyRandom.rand (np_random w)) as [u g1]. cbn in Hu0 |- *.
  rewrite true_div_ok by lia. cbn.
  case_bool_decide as Hadm; [| done].
  assert (0 < Reservoir.maxlen s) as Hc.
  { destruct (Z.lt_ge_cases 0 (Reservoir.maxlen s)) as [|Hle]; [done |].
    pose proof (double_div_nonpos (Reservoir.maxlen s) (Reservoir.i s + 1)
                  Hle ltac:(lia)) as Hp.
    exfalso. eapply Qclt_not_le; [exact Hadm |].
    apply (Qcle_trans _ 0); assumption. }
  unfold NumpyRandom.choice, next_raw.
  destruct (Z.leb_spec (Reservoir.maxlen s) 0); [lia |]. cbn.
  pose proof (Z.mod_pos_bound (tape g1 (pos g1)) (Reservoir.maxlen s) Hc).
  unfold Deque.setitem, Reservoir.lift_res.
  destruct (Z.ltb_spec (tape g1 (pos g1) `mod` Reservoir.maxlen s) 0);
    [lia |].
  replace ((0 <=? tape g1 (pos g1) `mod` Reservoir.maxlen s)
           && (tape g1 (pos g1) `mod` Reservoir.maxlen s
               <? Z.of_nat (length (Reservoir.reservoir s))))
    with true by (symmetry; apply andb_true_intro; split; lia).
  done.
Qed.

(** Without room, and with a quotient too large for a double, the append
    raises after the counter was incremented and the admission draw was
    made. *)
Lemma reservoir_append_overflow s w x :
  Reservoir.maxlen s <= Z.of_nat (length (Reservoir.reservoir s)) ->
  0 <= Reservoir.i s ->
  Float.overflow_bound * (Reservoir.i s + 1) <= Z.abs (Reservoir.maxlen s) ->
  Reservoir.append x (s, w)
  = (Raise OverflowError,
     (Reservoir.Build (Reservoir.maxlen s) (Reservoir.i s + 1)
        (Reservoir.reservoir s),
      World_ (snd (NumpyRandom.rand (np_random w))) (py_random w))).
Proof.
  intros Hfull Hi Hbig.
  unfold Reservoir.append, bind, Reservoir.self_, Reservoir.set_i,
    Reservoir.set_reservoir, with_np. cbn.
  destruct (Z.ltb_spec (Z.of_nat (length (Reservoir.reservoir s)))
              (Reservoir.maxlen s)); [lia |].
  destruct (NumpyRandom.rand (np_random w)) as [u g1]. cbn.
  rewrite true_div_raises by lia. reflexivity.
Qed.


End ReservoirStep.

(** ** Reservoir: runs of appends *)

Section ReservoirRuns.
Context {A : Type}.
Implicit Types (s : Reservoir.t A) (w : World) (x : A) (xs : list A).

(** In a reservoir that satisfies the invariant and whose capacity is
    above [- overflow_bound], the quotient of the admission test has a
    double. *)
Lemma reservoir_quotient_fits s :
  reservoir_inv s ->
  - Float.overflow_bound < Reservoir.maxlen s ->
  Reservoir.maxlen s <= Z.of_nat (length (Reservoir.reservoir s)) ->
  Z.abs (Reservoir.maxlen s) < Float.overflow_bound * (Reservoir.i s + 1).
Proof.
  intros [Hi Hlen] Hbound Hfull. pose proof overflow_bound_pos. nia.
Qed.

Lemma reservoir_append_inv s w x :
  reservoir_inv s ->
  - Float.overflow_bound < Reservoir.maxlen s ->
  exists s' w', Reservoir.append x (s, w) = (Ok tt, (s', w'))
    /\ Reservoir.maxlen s' = Reservoir.maxlen s
    /\ Reservoir.i s' = Reservoir.i s + 1
    /\ py_random w' = py_random w
    /\ reservoir_inv s'.
Proof.
  intros Hinv Hbound. pose proof Hinv as [Hi Hlen].
  destruct (Z.lt_ge_cases (Z.of_nat (length (Reservoir.reservoir s)))
              (Reservoir.maxlen s)) as [Hroom | Hfull].
  - rewrite reservoir_append_room by done.
    eexists _, _. split_and!; try done. split; cbn; [lia |].
    rewrite length_app. cbn. lia.
  - rewrite reservoir_append_full
      by (try apply reservoir_quotient_fits; done).
    unfold full_outcome.
    destruct (NumpyRandom.rand (np_random w)) as [u g1].
    case_bool_decide; eexists _, _; split_and!; try done;
      split; cbn; rewrite ?length_insert; lia.
Qed.

Lemma reservoir_run_inv xs : forall s w,
  reservoir_inv s ->
  - Float.overflow_bound < Reservoir.maxlen s ->
  exists s' w', for_each xs Reservoir.append (s, w) = (Ok tt, (s', w'))
    /\ Reservoir.maxlen s' = Reservoir.maxlen s
    /\ Reservoir.i s' = Reservoir.i s + Z.of_nat (length xs)
    /\ py_random w' = py_random w
    /\ reservoir_inv s'.
Proof.
  induction xs as [|x xs IH]; intros s w Hinv Hbound; cbn [for_each].
  - exists s, w. split_and!; try done. cbn. lia.
  - destruct (reservoir_append_inv s w x Hinv Hbound)
      as (s1 & w1 & Hstep & Hm1 & Hi1 & Hpy1 & Hinv1).
    destruct (IH s1 w1 Hinv1 ltac:(by rewrite Hm1))
      as (s2 & w2 & Hrun & Hm2 & Hi2 & Hpy2 & Hinv2).
    exists s2, w2. unfold bind. rewrite Hstep, Hrun.
    split_and!; try done; try congruence.
    rewrite Hi2, Hi1. cbn [length]. lia.
Qed.

(** For any capacity, an append ends normally or with [OverflowError],
    and keeps the invariant either way. *)
Lemma reservoir_append_any s w x :
  reservoir_inv s ->
  exists out s' w', Reservoir.append x (s, w) = (out, (s', w'))
    /\ (out = Ok tt \/ out = Raise OverflowError)
    /\ Reservoir.maxlen s' = Reservoir.maxlen s
    /\ Reservoir.i s' = Reservoir.i s + 1
    /\ py_random w' = py_random w
    /\ reservoir_inv s'.
Proof.
  intros Hinv.
  destruct (Z.lt_ge_cases (- Float.overflow_bound) (Reservoir.maxlen s))
    as [Hbound | Hbig].
  - destruct (reservoir_append_inv s w x Hinv Hbound)
      as (s' & w' & Hstep & ?). exists (Ok tt), s', w'.
    split_and!; try tauto.
  - pose proof Hinv as [Hi Hlen]. pose proof overflow_bound_pos.
    destruct (Z.lt_ge_cases (Z.abs (Reservoir.maxlen s))
                (Float.overflow_bound * (Reservoir.i s + 1))) as [Hfit | Hno].
    + rewrite reservoir_append_full by (done || lia). unfold full_outcome.
      destruct (NumpyRandom.rand (np_random w)) as [u g1].
      case_bool_decide; eexists _, _, _; split_and!; try done; try tauto;
        split; cbn; rewrite ?length_insert; lia.
    + rewrite reservoir_append_overflow by (done || lia).
      eexists _, _, _. split_and!; try done; try tauto.
      split; cbn; lia.
Qed.

Lemma reservoir_run_any xs : forall s w,
  reservoir_inv s ->
  exists out s' w', for_each xs Reservoir.append (s, w) = (out, (s', w'))
    /\ (out = Ok tt \/ out = Raise OverflowError)
    /\ Reservoir.maxlen s' = Reservoir.maxlen s
    /\ Reservoir.i s <= Reservoir.i s'
    /\ py_random w' = py_random w
    /\ reservoir_inv s'.
Proof.
  induction xs as [|x xs IH]; intros s w Hinv; cbn [for_each].
  - exists (Ok tt), s, w. split_and!; try done; try tauto.
  - destruct (reservoir_append_any s w x Hinv)
      as (out1 & s1 & w1 & Hstep & Hout1 & Hm1 & Hi1 & Hpy1 & Hinv1).
    unfold bind. rewrite Hstep. destruct Hout1 as [-> | ->].
    + destruct (IH s1 w1 Hinv1)
        as (out & s2 & w2 & Hrun & Hout & Hm2 & Hi2 & Hpy2 & Hinv2).
      exists out, s2, w2. rewrite Hrun.
      split_and!; try done; try congruence. lia.
    + exists (Raise OverflowError), s1, w1.
      split_and!; try done; try tauto. lia.
Qed.

Lemma reservoir_inv_init (c : Z) : reservoir_inv (Reservoir.Build (A:=A) c 0 []).
Proof. split; cbn; lia. Qed.


End ReservoirRuns.

(** ** CircularBuffer: runs of appends and samples *)

Lemma deque_append_keep_last {A} (c : Z) (l : list A) (x : A) :
  0 <= c ->
  Deque.append (Some c) (keep_last c l) x = keep_last c (l ++ [x]).
Proof.
  intros Hc. unfold Deque.append, keep_last.
  rewrite !length_app, length_drop. cbn [length].
  destruct (Z.ltb_spec c (Z.of_nat (length l - (length l - Z.to_nat c) + 1)))
    as [Hlt | Hge].
  - assert (Z.to_nat c <= length l)%nat by lia.
    replace (length l + 1 - Z.to_nat c)%nat
      with (S (length l - Z.to_nat c)) by lia.
    destruct (decide (Z.to_nat c = 0)%nat) as [E0 | Hpos].
    + rewrite E0, Nat.sub_0_r, drop_all.
      rewrite drop_ge by (rewrite length_app; cbn; lia). done.
    + rewrite drop_app_le by lia.
      destruct (drop (length l - Z.to_nat c) l) as [|a t] eqn:Hd.
      { apply (f_equal length) in Hd. rewrite length_drop in Hd.
        cbn in Hd. lia. }
      cbn [app tail]. f_equal.
      replace (S (length l - Z.to_nat c)) with (length l - Z.to_nat c + 1)%nat
        by lia.
      rewrite <- (drop_drop l 1 (length l - Z.to_nat c)), Hd. done.
  - replace (length l - Z.to_nat c)%nat with 0%nat by lia.
    replace (length l + 1 - Z.to_nat c)%nat with 0%nat by lia.
    done.
Qed.

Section CircularRuns.
Context {A : Type}.
Implicit Types (b : CircularBuffer.t A) (w : World).

Lemma circular_sample_frame b w (n : Z) :
  exists r w', CircularBuffer.sample n (b, w) = (r, (b, w'))
               /\ np_random w' = np_random w.
Proof.
  unfold CircularBuffer.sample, with_py.
  destruct (Random.sample (CircularBuffer.buffer b) n (py_random w)) as [r g'].
  by eexists _, _.
Qed.

(** Bounded buffer: whatever the caller samples in between, the buffer
    holds the last [c] appended items, oldest first. *)
Lemma drive_bounded (c : Z) (ops : list (op A)) : forall (seen : list A) w,
  0 <= c ->
  exists outs w',
    drive ops (CircularBuffer.Build (Some c) (keep_last c seen), w)
    = (Ok outs,
       (CircularBuffer.Build (Some c) (keep_last c (seen ++ appended ops)), w')).
Proof.
  induction ops as [|[x|n] ops IH]; intros seen w Hc; cbn [drive appended].
  - rewrite app_nil_r. by eexists _, _.
  - unfold bind. cbn [CircularBuffer.append CircularBuffer.maxlen
                        CircularBuffer.buffer].
    rewrite deque_append_keep_last by done.
    destruct (IH (seen ++ [x]) w Hc) as (outs & w' & ->).
    rewrite <- app_assoc. by eexists _, _.
  - unfold bind, try.
    destruct (circular_sample_frame
                (CircularBuffer.Build (Some c) (keep_last c seen)) w n)
      as (r & w1 & -> & _).
    destruct (IH seen w1 Hc) as (outs & w' & ->).
    by eexists _, _.
Qed.

(** Unbounded buffer: nothing is ever dropped. *)
Lemma drive_unbounded (ops : list (op A)) : forall (seen : list A) w,
  exists outs w',
    drive ops (CircularBuffer.Build None seen, w)
    = (Ok outs, (CircularBuffer.Build None (seen ++ appended ops), w')).
Proof.
  induction ops as [|[x|n] ops IH]; intros seen w; cbn [drive appended].
  - rewrite app_nil_r. by eexists _, _.
  - unfold bind. cbn [CircularBuffer.append CircularBuffer.maxlen
                        CircularBuffer.buffer Deque.append].
    destruct (IH (seen ++ [x]) w) as (outs & w' & ->).
    rewrite <- app_assoc. by eexists _, _.
  - unfold bind, try.
    destruct (circular_sample_frame (CircularBuffer.Build None seen) w n)
      as (r & w1 & -> & _).
    destruct (IH seen w1) as (outs & w' & ->).
    by eexists _, _.
Qed.

End CircularRuns.

(** ** Agent: the target-update assignments *)

(** What [__init__] builds. *)
Lemma init_inv softmax name input_dim action_dim max_replay
    max_supervised self :
  Agent.init softmax name input_dim action_dim max_replay max_supervised
    = Ok self ->
  exists replay,
    CircularBuffer.init max_replay = Ok replay
    /\ self = Agent.Build replay (Reservoir.Build max_supervised 0 [])
         input_dim action_dim name
         (Agent.create_q_network ("agent_" +:+ name) "current_q" input_dim)
         (Agent.create_q_network ("agent_" +:+ name) "target_q" input_dim)
         (Agent.create_policy_network softmax ("agent_" +:+ name) "policy"
            input_dim)
         (Agent.make_update_ops
            (Agent.create_q_network ("agent_" +:+ name) "current_q"
               input_dim)
            (Agent.create_q_network ("agent_" +:+ name) "target_q" input_dim)
            (Agent.create_policy_network softmax ("agent_" +:+ name) "policy"
               input_dim)).
Proof.
  unfold Agent.init. destruct (CircularBuffer.init max_replay) as [replay|];
    [| discriminate].
  unfold Reservoir.init. intros H. injection H as <-. by exists replay.
Qed.

(** Every variable of the three networks has a name that starts with
    [agent_], so neither [current_q] nor [target_q] is a prefix of any of
    them, both collections are empty, and so is their [zip]. *)
Lemma make_update_ops_nil softmax name input_dim :
  Agent.make_update_ops
    (Agent.create_q_network ("agent_" +:+ name) "current_q" input_dim)
    (Agent.create_q_network ("agent_" +:+ name) "target_q" input_dim)
    (Agent.create_policy_network softmax ("agent_" +:+ name) "policy"
       input_dim) = [].
Proof. reflexivity. Qed.

Lemma init_update_ops softmax name input_dim action_dim max_replay
    max_supervised self :
  Agent.init softmax name input_dim action_dim max_replay max_supervised
    = Ok self ->
  Agent.update_ops self = [].
Proof.
  intros Hinit. apply init_inv in Hinit as (replay & _ & ->).
  apply make_update_ops_nil.
Qed.

Lemma init_update_target_network softmax name input_dim action_dim max_replay
    max_supervised self (sess : TF.Session) :
  Agent.init softmax name input_dim action_dim max_replay max_supervised
    = Ok self ->
  Agent.update_target_network self sess = (Ok tt, sess).
Proof.
  intros Hinit. unfold Agent.update_target_network.
  by rewrite (init_update_ops _ _ _ _ _ _ _ Hinit).
Qed.

Lemma init_networks softmax name input_dim action_dim max_replay
    max_supervised self :
  Agent.init softmax name input_dim action_dim max_replay max_supervised
    = Ok self ->
  Agent.q_network self
  = Agent.create_network (TF.variable_scope ("agent_" +:+ name) "current_q")
      input_dim (fun x => x)
  /\ Agent.target_q_network self
     = Agent.create_network (TF.variable_scope ("agent_" +:+ name) "target_q")
         input_dim (fun x => x).
Proof. intros Hinit. by apply init_inv in Hinit as (replay & _ & ->). Qed.

Lemma create_network_output scope input_dim act sess f (x : mat) :
  Agent.forward scope act sess = Ok f ->
  Agent.output (Agent.create_network scope input_dim act) sess x
  = Ok (map f x).
Proof. intros Hf. unfold Agent.create_network, Agent.output. by rewrite Hf. Qed.

(** The two value networks of [Example.sess] on the state [[0]]. *)
Lemma example_forward :
  exists fq ft,
    Agent.forward "agent_a/current_q" (fun x => x) Example.sess = Ok fq
    /\ Agent.forward "agent_a/target_q" (fun x => x) Example.sess = Ok ft
    /\ map this (fq [0%Qc]) = [1%Q]
    /\ map this (ft [0%Qc]) = [0%Q].
Proof.
  destruct (Agent.forward "agent_a/current_q" (fun x => x) Example.sess)
    as [fq|] eqn:Hq; [| vm_compute in Hq; discriminate Hq].
  destruct (Agent.forward "agent_a/target_q" (fun x => x) Example.sess)
    as [ft|] eqn:Ht; [| vm_compute in Ht; discriminate Ht].
  exists fq, ft. split_and!; [done | done | |].
  - assert (match Agent.forward "agent_a/current_q" (fun x => x) Example.sess
            with Ok f => map this (f [0%Qc]) | Raise _ => [] end = [1%Q]) as H
      by (vm_compute; reflexivity).
    by rewrite Hq in H.
  - assert (match Agent.forward "agent_a/target_q" (fun x => x) Example.sess
            with Ok f => map this (f [0%Qc]) | Raise _ => [] end = [0%Q]) as H
      by (vm_compute; reflexivity).
    by rewrite Ht in H.
Qed.

(** ** The arrays fed to a network *)


(** No vector at all, or a vector of another width, and the feed is
    refused. *)
Lemma feed_input_np_array_refused (net : Agent.network) (vs : list vec) :
  vs = []
  \/ Exists (fun v => Z.of_nat (length v) <> Agent.input_width net) vs ->
  Agent.feed_input net (np_array vs) = Raise ValueError.
Proof.
  intros [-> | Hex]; [done |].
  destruct vs as [|v vs]; [done |]. unfold np_array.
  destruct (forallb (fun u => (length u =? length v)%nat) vs) eqn:Hall;
    [| done].
  unfold Agent.feed_input. cbn [shape rows].
  destruct (Z.eqb_spec (Z.of_nat (length v)) (Agent.input_width net))
    as [Hv |]; [| done].
  exfalso. apply Exists_cons in Hex as [Hbad | Hbad]; [done |].
  apply Exists_exists in Hbad as (u & Hu & Hbad).
  rewrite forallb_forall in Hall.
  apply list_elem_of_In in Hu. specialize (Hall u Hu).
  apply Nat.eqb_eq in Hall. lia.
Qed.


Lemma check_feed_empty (self : Agent.t) :
  Agent.check_feed self (Agent.make_q_feed []) = Raise ValueError.
Proof. reflexivity. Qed.

(** ** float32 *)

Lemma Qc_of_Q_eq (x y : Q) : (x == y)%Q -> Q2Qc x = Q2Qc y.
Proof. intros E. apply Qc_is_canon. cbn [this Q2Qc]. by rewrite E. Qed.





Lemma rnd_not_nan (x : Qc) : F32.rnd x <> F32.NaN.
Proof. unfold F32.rnd. by repeat case_match. Qed.

(** The order of [float32] values other than NaN. *)
Lemma ltb_irrefl (a : F32.t) : F32.ltb a a = false.
Proof.
  destruct a; cbn; try done. case_bool_decide as H; [| done].
  exfalso. eapply Qclt_not_le; [exact H | apply Qcle_refl].
Qed.

Lemma ltb_trans (a b c : F32.t) :
  F32.ltb a b = true -> F32.ltb b c = true -> F32.ltb a c = true.
Proof.
  destruct a, b, c; cbn; try done.
  rewrite !bool_decide_eq_true. apply Qclt_trans.
Qed.

Lemma ltb_le_trans (a b c : F32.t) :
  c <> F32.NaN ->
  F32.ltb a b = true -> F32.ltb c b = false -> F32.ltb a c = true.
Proof.
  destruct a, b, c; cbn; try done.
  rewrite !bool_decide_eq_true, bool_decide_eq_false. intros _ Hab Hcb.
  apply Qcnot_lt_le in Hcb. eapply Qclt_le_trans; done.
Qed.

Lemma le_ltb_trans (a b c : F32.t) :
  a <> F32.NaN ->
  F32.ltb b a = false -> F32.ltb b c = true -> F32.ltb a c = true.
Proof.
  destruct a, b, c; cbn; try done.
  rewrite !bool_decide_eq_true, bool_decide_eq_false. intros _ Hba Hbc.
  apply Qcnot_lt_le in Hba. eapply Qcle_lt_trans; done.
Qed.

(** The scan of [row_max] from [acc] ends on [acc] or on an element of the
    row, and nothing it has seen is greater. *)
Lemma row_max_from (row : list F32.t) : forall acc : F32.t,
  acc <> F32.NaN -> Forall (fun y => y <> F32.NaN) row ->
  let m := foldl F32.max2 acc row in
  m <> F32.NaN
  /\ (m = acc \/ m ∈ row)
  /\ F32.ltb m acc = false
  /\ Forall (fun y => F32.ltb m y = false) row.
Proof.
  induction row as [|x row IH]; intros acc Hacc Hrow; cbn [foldl].
  - split_and!; [done | by left | apply ltb_irrefl | constructor].
  - apply Forall_cons in Hrow as [Hx Hrow].
    assert (F32.max2 acc x <> F32.NaN) as Hacc'
      by (unfold F32.max2; by case_match).
    destruct (IH (F32.max2 acc x) Hacc' Hrow) as (Hm & Hin & Hge & Hall).
    set (m := foldl F32.max2 (F32.max2 acc x) row) in *.
    assert (F32.ltb m acc = false /\ F32.ltb m x = false) as [Hma Hmx].
    { unfold F32.max2 in Hge. destruct (F32.ltb acc x) eqn:Hlt.
      - split; [| done]. destruct (F32.ltb m acc) eqn:E; [| done].
        by rewrite (ltb_trans _ _ _ E Hlt) in Hge.
      - split; [done |]. destruct (F32.ltb m x) eqn:E; [| done].
        by rewrite (ltb_le_trans _ _ _ Hacc E Hlt) in Hge. }
    split_and!; [done | | done | by constructor].
    destruct Hin as [Hin | Hin]; [| right; by constructor].
    rewrite Hin. unfold F32.max2.
    destruct (F32.ltb acc x); [right; constructor | by left].
Qed.


Lemma rounded_row_no_nan (v : vec) :
  Forall (fun y => y <> F32.NaN) (map F32.rnd v).
Proof. apply Forall_map, Forall_forall. intros x _. apply rnd_not_nan. Qed.

Lemma row_max_not_nan (v : vec) : F32.row_max (map F32.rnd v) <> F32.NaN.
Proof.
  unfold F32.row_max.
  by destruct (row_max_from (map F32.rnd v) F32.NInf ltac:(done)
                 (rounded_row_no_nan v)) as (Hm & _).
Qed.




(** ** The buffers: sampling *)

Section Sampling.
Context {A : Type}.
Implicit Types (r : Reservoir.t A) (c : CircularBuffer.t A) (w : World).

Lemma reservoir_sample_unfold r w (n : Z) :
  Reservoir.sample n (r, w)
  = let (out, g') := Random.sample (Reservoir.reservoir r) n (py_random w) in
    (out, (r, World_ (np_random w) g')).
Proof. reflexivity. Qed.

Lemma circular_sample_unfold c w (n : Z) :
  CircularBuffer.sample n (c, w)
  = let (out, g') := Random.sample (CircularBuffer.buffer c) n (py_random w) in
    (out, (c, World_ (np_random w) g')).
Proof. reflexivity. Qed.

Lemma reservoir_sample_too_large r w (n : Z) :
  Reservoir.len r < n ->
  Reservoir.sample n (r, w) = (Raise ValueError, (r, w)).
Proof.
  intros Hn. rewrite reservoir_sample_unfold.
  rewrite random_sample_too_large by exact Hn. by destruct w.
Qed.

Lemma circular_sample_too_large c w (n : Z) :
  CircularBuffer.len c < n ->
  CircularBuffer.sample n (c, w) = (Raise ValueError, (c, w)).
Proof.
  intros Hn. rewrite circular_sample_unfold.
  rewrite random_sample_too_large by exact Hn. by destruct w.
Qed.

Lemma reservoir_sample_ok r w (n : Z) :
  0 <= n <= Reservoir.len r ->
  exists out w', Reservoir.sample n (r, w) = (Ok out, (r, w'))
    /\ Z.of_nat (length out) = n
    /\ out ⊆+ Reservoir.reservoir r
    /\ np_random w' = np_random w.
Proof.
  intros Hn. rewrite reservoir_sample_unfold.
  destruct (random_sample_ok (Reservoir.reservoir r) n (py_random w) Hn)
    as (out & g' & -> & Hlen & Hsub).
  by eexists _, _.
Qed.

Lemma circular_sample_ok c w (n : Z) :
  0 <= n <= CircularBuffer.len c ->
  exists out w', CircularBuffer.sample n (c, w) = (Ok out, (c, w'))
    /\ Z.of_nat (length out) = n
    /\ out ⊆+ CircularBuffer.buffer c
    /\ np_random w' = np_random w.
Proof.
  intros Hn. rewrite circular_sample_unfold.
  destruct (random_sample_ok (CircularBuffer.buffer c) n (py_random w) Hn)
    as (out & g' & -> & Hlen & Hsub).
  by eexists _, _.
Qed.

End Sampling.


(** ** Concrete runs *)

(** A circular buffer of capacity 3 given A, B, C, D holds B, C, D, and
    C, D, E after E (the records are numbered 1 to 5 here). *)
Example circular_buffer_scenario :
  snd (drive [Append 1; Append 2; Append 3; Append 4; Sample 3]
         (CircularBuffer.Build (Some 3) [], Example.world))
  = (CircularBuffer.Build (Some 3) [2; 3; 4],
     World_ (Rng (fun _ => 0) 0) (Rng (fun _ => 0) 3))
  /\ fst (snd (drive [Append 1; Append 2; Append 3; Append 4; Sample 3;
                      Append 5]
                 (CircularBuffer.Build (Some 3) [], Example.world)))
     = CircularBuffer.Build (Some 3) [3; 4; 5].
Proof. split; reflexivity. Qed.

(** A reservoir of capacity 2 on a tape of zero draws: the third item is
    admitted ([0 < 2/3]) and overwrites slot [0]. *)
Example reservoir_scenario :
  for_each [7; 8; 9] Reservoir.append (Reservoir.Build 2 0 [], Example.world)
  = (Ok tt, (Reservoir.Build 2 3 [9; 8],
             World_ (Rng (fun _ => 0) 2) (Rng (fun _ => 0) 0))).
Proof. vm_compute. reflexivity. Qed.

(** A tape whose admission draw is [2^53 - 1] (so [rand()] is just below
    [1]) rejects the third item. *)
Example reservoir_scenario_rejected :
  for_each [7; 8; 9] Reservoir.append
    (Reservoir.Build 2 0 [],
     World_ (Rng (fun _ => 9007199254740991) 0) (Rng (fun _ => 0) 0))
  = (Ok tt, (Reservoir.Build 2 3 [7; 8],
             World_ (Rng (fun _ => 9007199254740991) 1) (Rng (fun _ => 0) 0))).
Proof. vm_compute. reflexivity. Qed.

(** Python's [2 / 3] is the double [6004799503160661 / 2^53], the
    quotient [1 / 2^1075] underflows to [0.0], [(-10**400) / 1] raises
    [OverflowError] and [1 / 0] raises [ZeroDivisionError]. *)
Example true_div_scenario :
  this (double_div 2 3) = (6004799503160661 # 9007199254740992)%Q
  /\ this (double_div 1 (2 ^ 1075)) = 0%Q
  /\ fst (true_div (S:=unit) (- 10 ^ 400) 1 tt) = Raise OverflowError
  /\ fst (true_div (S:=unit) 1 0 tt) = Raise ZeroDivisionError.
Proof. split_and!; vm_compute; reflexivity. Qed.

(** A reservoir built with the capacity [-10**400] raises on its first
    append, after the counter and numpy's generator have moved. *)
Example reservoir_scenario_overflow :
  Reservoir.append 7 (Reservoir.Build (- 10 ^ 400) 0 [], Example.world)
  = (Raise OverflowError,
     (Reservoir.Build (- 10 ^ 400) 1 [],
      World_ (Rng (fun _ => 0) 1) (Rng (fun _ => 0) 0))).
Proof. vm_compute. reflexivity. Qed.

(** In [float32], [0.1] is [13421773 / 2^27], [2^128] is infinite, and the
    masked target [5 + 0 * inf] is NaN. *)
Example float32_scenario :
  F32.to_Q (F32.rnd (Q2Qc (1 # 10))) = Some (13421773 # 134217728)%Q
  /\ F32.rnd (Qc_of_Z (2 ^ 128)) = F32.PInf
  /\ F32.rnd (Qc_of_Z (- 2 ^ 128)) = F32.NInf
  /\ F32.add (F32.rnd (Qc_of_Z 5)) (F32.mul (F32.Finite 0%Qc) F32.PInf)
     = F32.NaN.
Proof. split_and!; vm_compute; reflexivity. Qed.

(** [np.array] of no vector is one-dimensional, and so is the array of
    two vectors of different lengths; a network created for one input
    refuses both, and an array of width two. *)
Example feed_scenario :
  shape (np_array []) = [0]
  /\ shape (np_array [[0%Qc]; [0%Qc; 0%Qc]]) = [2]
  /\ shape (np_array [[0%Qc; 0%Qc]]) = [1; 2]
  /\ Agent.feed_input (Agent.create_network "s" 1 (fun x => x))
       (np_array []) = Raise ValueError
  /\ Agent.feed_input (Agent.create_network "s" 1 (fun x => x))
       (np_array [[0%Qc]; [0%Qc; 0%Qc]]) = Raise ValueError
  /\ Agent.feed_input (Agent.create_network "s" 1 (fun x => x))
       (np_array [[0%Qc; 0%Qc]]) = Raise ValueError
  /\ Agent.feed_input (Agent.create_network "s" 1 (fun x => x))
       (np_array [[0%Qc]; [1%Qc]]) = Ok [[0%Qc]; [1%Qc]].
Proof. split_and!; reflexivity. Qed.

(** ** Agent: the training step *)

(** [train_q_network] feeds the graph with the minibatch that
    [replay_memory.sample] returned, and only with it. *)
Lemma train_q_network_feed q_trainer (self : Agent.t) (sess : TF.Session)
    (w : World) (batch_size : Z) :
  0 <= batch_size <= CircularBuffer.len (Agent.replay_memory self) ->
  exists minibatch w',
    CircularBuffer.sample batch_size (Agent.replay_memory self, w)
    = (Ok minibatch, (Agent.replay_memory self, w'))
    /\ Z.of_nat (length minibatch) = batch_size
    /\ minibatch ⊆+ CircularBuffer.buffer (Agent.replay_memory self)
    /\ Agent.train_q_network q_trainer batch_size (self, sess, w)
       = Agent.run_q_step q_trainer (Agent.make_q_feed minibatch)
           (self, sess, w').
Proof.
  intros Hn.
  destruct (circular_sample_ok (Agent.replay_memory self) w batch_size Hn)
    as (mb & w' & Hs & Hlen & Hsub & _).
  exists mb, w'. split_and!; [exact Hs | exact Hlen | exact Hsub |].
  unfold Agent.train_q_network, bind, Agent.on_replay.
  rewrite Hs. by destruct self.
Qed.

(** * The claims *)

(** C1.  After [update_target_network] the target value network should
    hold the parameters of the current one and so predict the same values.
    In the code the assignment list is empty: [tf.get_collection] is asked
    for the scopes [current_q] and [target_q], while every variable lives
    under [agent_<name>/...].  On the agent [Agent('a', 1, 1)] and a session
    where the current network answers [1] and the target network answers
    [0], running [update_target_network] leaves the session as it was, and
    the two networks still disagree on the state [[0]]. *)
Theorem update_target_network_copies_nothing :
  exists self q t,
    Example.agent = Ok self
    /\ Agent.update_ops self = []
    /\ Agent.update_target_network self Example.sess = (Ok tt, Example.sess)
    /\ (let sess' := snd (Agent.update_target_network self Example.sess) in
        Agent.output (Agent.q_network self) sess' [[0%Qc]] = Ok q
        /\ Agent.output (Agent.target_q_network self) sess' [[0%Qc]] = Ok t)
    /\ Example.fractions q = [[1%Q]]
    /\ Example.fractions t = [[0%Q]]
    /\ q <> t.
Proof.
  destruct example_forward as (fq & ft & Hq & Ht & Hfq & Hft).
  assert (exists self, Example.agent = Ok self) as [self Hagent]
    by (eexists; reflexivity).
  pose proof Hagent as Hinit. unfold Example.agent in Hinit.
  destruct (init_networks _ _ _ _ _ _ _ Hinit) as [Eq Et].
  exists self, [fq [0%Qc]], [ft [0%Qc]].
  rewrite (init_update_target_network _ _ _ _ _ _ _ Example.sess Hinit).
  cbn [snd]. rewrite Eq, Et.
  split_and!.
  - exact Hagent.
  - exact (init_update_ops _ _ _ _ _ _ _ Hinit).
  - reflexivity.
  - exact (create_network_output _ _ _ _ fq [[0%Qc]] Hq).
  - exact (create_network_output _ _ _ _ ft [[0%Qc]] Ht).
  - unfold Example.fractions. cbn [map]. by rewrite Hfq.
  - unfold Example.fractions. cbn [map]. by rewrite Hft.
  - intros [= E]. rewrite E, Hft in Hfq. discriminate Hfq.
Qed.

(** ** The bootstrap target *)




(** C3 as the specification words it fails: an empty reservoir and an
    empty circular buffer asked for one item raise, but what they raise is
    [ValueError], not [InsufficientDataError]. *)
Lemma sample_error_is_not_InsufficientDataError :
  fst (Reservoir.sample 1 (Reservoir.Build (A:=nat) 3 0 [], Example.world))
  = Raise ValueError
  /\ fst (CircularBuffer.sample 1
            (CircularBuffer.Build (A:=nat) (Some 3) [], Example.world))
     = Raise ValueError
  /\ ~ (fst (Reservoir.sample 1
               (Reservoir.Build (A:=nat) 3 0 [], Example.world))
        = Raise InsufficientDataError
        \/ fst (CircularBuffer.sample 1
                  (CircularBuffer.Build (A:=nat) (Some 3) [], Example.world))
           = Raise InsufficientDataError).
Proof.
  split_and!; [reflexivity | reflexivity |].
  intros [H | H]; vm_compute in H; discriminate H.
Qed.

(** C3 (amended).  For both buffers, [sample(n)] with more items asked for
    than the buffer holds raises [ValueError] (the exception of
    [random.sample]) and changes neither the buffer nor the generators;
    [sample(len(buffer))] returns a list of that many items. *)
Theorem sample_boundary {A} (r : Reservoir.t A) (c : CircularBuffer.t A)
    (w : World) (n : Z) :
  (Reservoir.len r < n ->
     Reservoir.sample n (r, w) = (Raise ValueError, (r, w)))
  /\ (CircularBuffer.len c < n ->
        CircularBuffer.sample n (c, w) = (Raise ValueError, (c, w)))
  /\ (exists out w',
        Reservoir.sample (Reservoir.len r) (r, w) = (Ok out, (r, w'))
        /\ Z.of_nat (length out) = Reservoir.len r)
  /\ (exists out w',
        CircularBuffer.sample (CircularBuffer.len c) (c, w) = (Ok out, (c, w'))
        /\ Z.of_nat (length out) = CircularBuffer.len c).
Proof.
  split_and!.
  - apply reservoir_sample_too_large.
  - apply circular_sample_too_large.
  - destruct (reservoir_sample_ok r w (Reservoir.len r))
      as (out & w' & Hs & Hlen & _); [unfold Reservoir.len; lia |].
    by exists out, w'.
  - destruct (circular_sample_ok c w (CircularBuffer.len c))
      as (out & w' & Hs & Hlen & _); [unfold CircularBuffer.len; lia |].
    by exists out, w'.
Qed.

Lemma sample_boundary_witness :
  (Reservoir.len (Reservoir.Build 3 2 [10; 20]) < 3
   /\ CircularBuffer.len (CircularBuffer.Build (Some 3) [10; 20]) < 3)
  /\ Reservoir.sample 3 (Reservoir.Build 3 2 [10; 20], Example.world)
     = (Raise ValueError, (Reservoir.Build 3 2 [10; 20], Example.world))
  /\ CircularBuffer.sample 3
       (CircularBuffer.Build (Some 3) [10; 20], Example.world)
     = (Raise ValueError,
        (CircularBuffer.Build (Some 3) [10; 20], Example.world)).
Proof.
  assert (Reservoir.len (Reservoir.Build 3 2 [10; 20]) < 3) as Hr
    by (vm_compute; reflexivity).
  assert (CircularBuffer.len (CircularBuffer.Build (Some 3) [10; 20]) < 3)
    as Hc by (vm_compute; reflexivity).
  destruct (sample_boundary (Reservoir.Build 3 2 [10; 20])
              (CircularBuffer.Build (Some 3) [10; 20]) Example.world 3)
    as (H1 & H2 & _).
  split_and!; [exact Hr | exact Hc | exact (H1 Hr) | exact (H2 Hc)].
Defined.

(** C7.  For both buffers and [0 <= n <= len(buffer)], [sample(n)] returns
    [n] items taken from [n] different positions of the buffer (the result
    is a sub-multiset of the contents, so it repeats no record that the
    buffer holds once), and the buffer is left exactly as it was. *)
Theorem sample_without_replacement {A} (r : Reservoir.t A)
    (c : CircularBuffer.t A) (w : World) (n : Z) :
  0 <= n ->
  (n <= Reservoir.len r ->
     exists out w',
       Reservoir.sample n (r, w) = (Ok out, (r, w'))
       /\ Z.of_nat (length out) = n
       /\ out ⊆+ Reservoir.reservoir r
       /\ (NoDup (Reservoir.reservoir r) -> NoDup out))
  /\ (n <= CircularBuffer.len c ->
        exists out w',
          CircularBuffer.sample n (c, w) = (Ok out, (c, w'))
          /\ Z.of_nat (length out) = n
          /\ out ⊆+ CircularBuffer.buffer c
          /\ (NoDup (CircularBuffer.buffer c) -> NoDup out)).
Proof.
  intros Hn. split; intros Hle.
  - destruct (reservoir_sample_ok r w n) as (out & w' & Hs & Hlen & Hsub & _);
      [lia |].
    exists out, w'. split_and!; try done. by apply submseteq_NoDup.
  - destruct (circular_sample_ok c w n) as (out & w' & Hs & Hlen & Hsub & _);
      [lia |].
    exists out, w'. split_and!; try done. by apply submseteq_NoDup.
Qed.

Lemma sample_without_replacement_witness :
  (0 <= 2
   /\ 2 <= Reservoir.len (Reservoir.Build 3 5 [10; 20; 30])
   /\ 2 <= CircularBuffer.len (CircularBuffer.Build (Some 3) [10; 20; 30]))
  /\ (exists out w',
        Reservoir.sample 2 (Reservoir.Build 3 5 [10; 20; 30], Example.world)
        = (Ok out, (Reservoir.Build 3 5 [10; 20; 30], w'))
        /\ NoDup out)
  /\ (exists out w',
        CircularBuffer.sample 2
          (CircularBuffer.Build (Some 3) [10; 20; 30], Example.world)
        = (Ok out, (CircularBuffer.Build (Some 3) [10; 20; 30], w'))
        /\ NoDup out).
Proof.
  assert (0 <= 2) as H0 by lia.
  assert (2 <= Reservoir.len (Reservoir.Build 3 5 [10; 20; 30])) as Hr
    by (vm_compute; discriminate).
  assert (2 <= CircularBuffer.len (CircularBuffer.Build (Some 3) [10; 20; 30]))
    as Hc by (vm_compute; discriminate).
  assert (NoDup [10; 20; 30]) as Hnd
    by (apply (bool_decide_unpack _); reflexivity).
  destruct (sample_without_replacement (Reservoir.Build 3 5 [10; 20; 30])
              (CircularBuffer.Build (Some 3) [10; 20; 30]) Example.world 2 H0)
    as [H1 H2].
  destruct (H1 Hr) as (o1 & w1 & E1 & _ & _ & N1).
  destruct (H2 Hc) as (o2 & w2 & E2 & _ & _ & N2).
  split_and!; [exact H0 | exact Hr | exact Hc | |].
  - exists o1, w1. split; [exact E1 | exact (N1 Hnd)].
  - exists o2, w2. split; [exact E2 | exact (N2 Hnd)].
Defined.

(** ** The buffers: appending *)

(** C4.  A circular buffer built with capacity [C >= 1] that has been
    given [x_1 .. x_n] ([n > C]) holds exactly [x_{n-C+1} .. x_n], oldest
    first, whatever samples the caller asked for in between (samples that
    raise included). *)
Theorem circular_buffer_fifo {A} (C : Z) (ops : list (op A)) (w : World) :
  1 <= C ->
  C < Z.of_nat (length (appended ops)) ->
  exists b0 outs b w',
    CircularBuffer.init (Some C) = Ok b0
    /\ drive ops (b0, w) = (Ok outs, (b, w'))
    /\ CircularBuffer.buffer b
       = drop (length (appended ops) - Z.to_nat C) (appended ops)
    /\ CircularBuffer.len b = C
    /\ CircularBuffer.maxlen b = Some C.
Proof.
  intros HC Hn.
  destruct (drive_bounded C ops [] w ltac:(lia)) as (outs & w' & Hrun).
  unfold CircularBuffer.init, Deque.new.
  destruct (Z.ltb_spec C 0); [lia |].
  eexists _, outs, _, w'. split_and!; [reflexivity | exact Hrun | ..].
  - reflexivity.
  - unfold CircularBuffer.len, keep_last. cbn.
    rewrite length_drop. lia.
  - reflexivity.
Qed.

Lemma circular_buffer_fifo_witness :
  (1 <= 3 /\ 3 < Z.of_nat (length (appended
      [Append 1%nat; Append 2%nat; Sample 5; Append 3%nat; Sample 2;
       Append 4%nat])))
  /\ exists b0 outs b w',
       CircularBuffer.init (Some 3) = Ok b0
       /\ drive [Append 1%nat; Append 2%nat; Sample 5; Append 3%nat; Sample 2;
                 Append 4%nat] (b0, Example.world) = (Ok outs, (b, w'))
       /\ CircularBuffer.buffer b = [2%nat; 3%nat; 4%nat].
Proof.
  assert (1 <= 3) as H1 by lia.
  assert (3 < Z.of_nat (length (appended
      [Append 1%nat; Append 2%nat; Sample 5; Append 3%nat; Sample 2;
       Append 4%nat]))) as H2 by (vm_compute; reflexivity).
  split; [split; [exact H1 | exact H2] |].
  destruct (circular_buffer_fifo 3
              [Append 1%nat; Append 2%nat; Sample 5; Append 3%nat; Sample 2;
               Append 4%nat] Example.world H1 H2)
    as (b0 & outs & b & w' & Hi & Hd & Hb & _).
  exists b0, outs, b, w'. split_and!; [exact Hi | exact Hd | exact Hb].
Defined.

(** C10.  A circular buffer built without a capacity ([maxlen = None])
    never drops anything: after any run of appends and samples it holds all
    appended items in order, and its length is their number. *)
Theorem circular_buffer_unbounded {A} (ops : list (op A)) (w : World) :
  exists b0 outs b w',
    CircularBuffer.init None = Ok b0
    /\ drive ops (b0, w) = (Ok outs, (b, w'))
    /\ CircularBuffer.buffer b = appended ops
    /\ CircularBuffer.len b = Z.of_nat (length (appended ops)).
Proof.
  destruct (drive_unbounded ops [] w) as (outs & w' & Hrun).
  eexists _, outs, _, w'. split_and!; [reflexivity | exact Hrun | ..];
    reflexivity.
Qed.




(** C6.  For a reservoir with capacity [C >= 1], after [i] appends the
    length is [min(i, C)] whatever the draws were, no append raises, and
    one more append adds one to a length below [C] and keeps a length
    of [C]. *)
Theorem reservoir_occupancy {A} (C : Z) (xs : list A) (w : World) :
  1 <= C ->
  exists s0 s w',
    Reservoir.init C = Ok s0
    /\ for_each xs Reservoir.append (s0, w) = (Ok tt, (s, w'))
    /\ Reservoir.len s = Z.min (Z.of_nat (length xs)) C
    /\ forall x, exists s2 w2,
         Reservoir.append x (s, w') = (Ok tt, (s2, w2))
         /\ Reservoir.len s2
            = (if Reservoir.len s <? C then Reservoir.len s + 1 else C).
Proof.
  intros HC.
  assert (- Float.overflow_bound < C) as Hbound
    by (pose proof overflow_bound_pos; lia).
  destruct (reservoir_run_inv xs (Reservoir.Build C 0 []) w
              (reservoir_inv_init C) Hbound)
    as (s & w' & Hrun & Hm & Hi & _ & Hinv).
  cbn in Hm, Hi. rewrite Z.add_0_l in Hi. pose proof Hinv as [Hi0 Hlen].
  exists (Reservoir.Build C 0 []), s, w'.
  split_and!; [reflexivity | exact Hrun | |].
  - unfold Reservoir.len. rewrite Hlen, Hm, Hi. lia.
  - intros x.
    destruct (reservoir_append_inv s w' x Hinv ltac:(by rewrite Hm))
      as (s2 & w2 & Hstep & Hm2 & Hi2 & _ & [_ Hlen2]).
    exists s2, w2. split; [exact Hstep |].
    unfold Reservoir.len. rewrite Hlen2, Hlen, Hm2, Hi2, Hm, Hi.
    destruct (Z.ltb_spec (Z.min (Z.of_nat (length xs)) (Z.max C 0)) C); lia.
Qed.

Lemma reservoir_occupancy_witness :
  1 <= 2
  /\ exists s0 s w',
       Reservoir.init 2 = Ok s0
       /\ for_each [7%nat; 8%nat; 9%nat] Reservoir.append (s0, Example.world)
          = (Ok tt, (s, w'))
       /\ Reservoir.len s = 2.
Proof.
  assert (1 <= 2) as H by lia.
  split; [exact H |].
  destruct (reservoir_occupancy 2 [7%nat; 8%nat; 9%nat] Example.world H)
    as (s0 & s & w' & Hinit & Hrun & Hlen & _).
  exists s0, s, w'. split_and!; [exact Hinit | exact Hrun | exact Hlen].
Defined.

(** ** Construction with capacity 0 *)

(** C8 as the specification words it fails: both constructors accept the
    capacity [0] and return an empty buffer; neither raises
    [ConfigurationError]. *)
Lemma capacity_zero_is_accepted :
  Reservoir.init (A:=nat) 0 = Ok (Reservoir.Build 0 0 [])
  /\ CircularBuffer.init (A:=nat) (Some 0)
     = Ok (CircularBuffer.Build (Some 0) [])
  /\ ~ (Reservoir.init (A:=nat) 0 = Raise ConfigurationError
        \/ CircularBuffer.init (A:=nat) (Some 0) = Raise ConfigurationError).
Proof.
  split_and!; [reflexivity | reflexivity |].
  intros [H | H]; vm_compute in H; discriminate H.
Qed.

(** C8 (amended).  Both buffers can be built with capacity [0] and are
    then empty.  For every capacity, the division [maxlen / i] of the
    admission test never has a zero divisor: the counter is incremented
    before the test and is at least [1] there.  What a run of appends can
    raise is [OverflowError], for a capacity whose quotient has no double;
    with a capacity above [- overflow_bound] no append raises. *)
Theorem reservoir_division_is_safe {A} (C : Z) (xs : list A) (w : World) :
  Reservoir.init (A:=A) 0 = Ok (Reservoir.Build 0 0 [])
  /\ CircularBuffer.init (A:=A) (Some 0) = Ok (CircularBuffer.Build (Some 0) [])
  /\ exists s0 out s w',
       Reservoir.init C = Ok s0
       /\ for_each xs Reservoir.append (s0, w) = (out, (s, w'))
       /\ (out = Ok tt \/ out = Raise OverflowError)
       /\ 1 <= Reservoir.i s + 1
       /\ (forall x w2,
             fst (true_div (S:=unit) C (Reservoir.i s + 1) tt)
               <> Raise ZeroDivisionError
             /\ fst (Reservoir.append x (s, w2)) <> Raise ZeroDivisionError)
       /\ (- Float.overflow_bound < C ->
             out = Ok tt
             /\ Reservoir.i s = Z.of_nat (length xs)
             /\ forall x w2,
                  fst (Reservoir.append x (s, w2)) = Ok tt
                  /\ (C <= Reservoir.len s ->
                      fst (true_div (S:=unit) C (Reservoir.i s + 1) tt)
                      = Ok (double_div C (Reservoir.i s + 1)))).
Proof.
  split_and!; [reflexivity | reflexivity |].
  destruct (reservoir_run_any xs (Reservoir.Build C 0 []) w
              (reservoir_inv_init C))
    as (out & s & w' & Hrun & Hout & Hm & Hi & _ & Hinv).
  cbn in Hm, Hi. pose proof Hinv as [Hi0 Hlen].
  exists (Reservoir.Build C 0 []), out, s, w'.
  split_and!; [reflexivity | exact Hrun | exact Hout | lia | |].
  - intros x w2. split.
    + unfold true_div.
      destruct (Z.eqb_spec (Reservoir.i s + 1) 0); [lia |].
      by case_match.
    + destruct (reservoir_append_any s w2 x Hinv)
        as (o & s2 & w3 & -> & [-> | ->] & _); cbn [fst]; discriminate.
  - intros Hbound.
    destruct (reservoir_run_inv xs (Reservoir.Build C 0 []) w
                (reservoir_inv_init C) Hbound)
      as (s' & w'' & Hrun' & _ & Hi' & _).
    rewrite Hrun' in Hrun. injection Hrun as <- <- <-.
    cbn in Hi'. split_and!; [reflexivity | exact Hi' |].
    intros x w2. split.
    + destruct (reservoir_append_inv s' w2 x Hinv ltac:(by rewrite Hm))
        as (s2 & w3 & -> & _). reflexivity.
    + intros Hfull. rewrite true_div_ok; [reflexivity | lia |].
      rewrite <- Hm. apply reservoir_quotient_fits; [done | lia |].
      unfold Reservoir.len in Hfull. lia.
Qed.

Lemma reservoir_division_is_safe_witness :
  - Float.overflow_bound < 0
  /\ exists s0 s w',
       Reservoir.init 0 = Ok s0
       /\ for_each [7%nat; 8%nat] Reservoir.append (s0, Example.world)
          = (Ok tt, (s, w'))
       /\ Reservoir.i s = 2
       /\ fst (true_div (S:=unit) 0 (Reservoir.i s + 1) tt)
          = Ok (double_div 0 (Reservoir.i s + 1)).
Proof.
  assert (- Float.overflow_bound < 0) as Hbound by (vm_compute; reflexivity).
  split; [exact Hbound |].
  destruct (reservoir_division_is_safe 0 [7%nat; 8%nat] Example.world)
    as (_ & _ & s0 & out & s & w' & Hinit & Hrun & _ & _ & _ & Hok).
  destruct (Hok Hbound) as (-> & Hi & Hnext).
  exists s0, s, w'. split_and!; [exact Hinit | exact Hrun | exact Hi |].
  apply (Hnext 9%nat Example.world).
  injection Hinit as <-.
  assert (for_each [7%nat; 8%nat] Reservoir.append
            (Reservoir.Build 0 0 [], Example.world)
          = (Ok tt, (Reservoir.Build 0 2 [],
                     World_ (Rng (fun _ => 0) 2) (Rng (fun _ => 0) 0))))
    as E by (vm_compute; reflexivity).
  rewrite E in Hrun. injection Hrun as <- <-.
  vm_compute. discriminate.
Defined.

(** ** Prediction with a state batch of the wrong width *)

(** C9 as the specification words it fails: on the agent of [Example]
    ([input_dim = 1]) a batch of shape [(1, 2)] makes both prediction
    methods raise, but what they raise is [AssertionError], not
    [ShapeMismatchError]. *)
Lemma shape_error_is_not_ShapeMismatchError :
  exists self,
    Example.agent = Ok self
    /\ fst (Agent.predict_q self (NdArray [1; 2] [[0%Qc; 0%Qc]]) Example.sess)
       = Raise AssertionError
    /\ fst (Agent.predict_policy self (NdArray [1; 2] [[0%Qc; 0%Qc]])
              Example.sess)
       = Raise AssertionError
    /\ ~ (fst (Agent.predict_q self (NdArray [1; 2] [[0%Qc; 0%Qc]])
                 Example.sess)
          = Raise ShapeMismatchError
          \/ fst (Agent.predict_policy self (NdArray [1; 2] [[0%Qc; 0%Qc]])
                    Example.sess)
             = Raise ShapeMismatchError).
Proof.
  eexists. split_and!; [reflexivity | reflexivity | reflexivity |].
  intros [H | H]; vm_compute in H; discriminate H.
Qed.

(** C9 (amended).  For a two-dimensional state batch whose second
    dimension differs from [input_dim], [predict_q] and [predict_policy]
    raise [AssertionError] before the session is run: the answer is the
    same for every session, also for one in which no variable has a value,
    and the session is left as it was. *)
Theorem predict_rejects_wrong_width (self : Agent.t) (state : ndarray)
    (sess : TF.Session) (n d : Z) :
  shape state = [n; d] ->
  d <> Agent.input_dim self ->
  Agent.predict_q self state sess = (Raise AssertionError, sess)
  /\ Agent.predict_policy self state sess = (Raise AssertionError, sess).
Proof.
  intros Hshape Hd.
  unfold Agent.predict_q, Agent.predict_policy, Agent.shape_at, bind, assert.
  rewrite Hshape. cbn.
  destruct (Z.eqb_spec d (Agent.input_dim self)); [contradiction | done].
Qed.

Lemma predict_rejects_wrong_width_witness :
  exists self,
    Example.agent = Ok self
    /\ shape (NdArray [1; 2] [[0%Qc; 0%Qc]]) = [1; 2]
    /\ 2 <> Agent.input_dim self
    /\ Agent.predict_q self (NdArray [1; 2] [[0%Qc; 0%Qc]]) ∅
       = (Raise AssertionError, ∅)
    /\ Agent.predict_policy self (NdArray [1; 2] [[0%Qc; 0%Qc]]) ∅
       = (Raise AssertionError, ∅).
Proof.
  destruct Example.agent as [self|] eqn:Hagent; [| discriminate Hagent].
  assert (2 <> Agent.input_dim self) as Hd.
  { injection Hagent as <-. vm_compute. discriminate. }
  assert (shape (NdArray [1; 2] [[0%Qc; 0%Qc]]) = [1; 2]) as Hs
    by reflexivity.
  destruct (predict_rejects_wrong_width self (NdArray [1; 2] [[0%Qc; 0%Qc]])
              ∅ 1 2 Hs Hd) as [Hq Hp].
  exists self. split_and!; [reflexivity | exact Hs | exact Hd | exact Hq |].
  exact Hp.
Defined.

(** * Further properties *)

(** ** Reservoir: what it holds *)

Section ReservoirContents.
Context {A : Type}.
Implicit Types (s : Reservoir.t A) (w : World) (x : A) (xs seen : list A).

Lemma insert_submseteq_snoc (r seen : list A) (j : nat) (x : A) :
  r ⊆+ seen -> <[j := x]> r ⊆+ seen ++ [x].
Proof.
  intros Hsub.
  destruct (r !! j) as [y|] eqn:Hj.
  - trans (y :: <[j := x]> r); [by apply submseteq_cons |].
    rewrite (insert_swap_Permutation r j y x Hj).
    rewrite <- Permutation_cons_append. by apply submseteq_skip.
  - rewrite list_insert_ge by (by apply lookup_ge_None).
    trans seen; [done |]. by apply submseteq_inserts_r.
Qed.

(** The three ways an append can go, by the room left and the size of
    the quotient. *)
Lemma reservoir_append_cases s w x :
  reservoir_inv s ->
  Reservoir.append x (s, w)
  = (Ok tt, (Reservoir.Build (Reservoir.maxlen s) (Reservoir.i s + 1)
               (Reservoir.reservoir s ++ [x]), w))
  \/ Reservoir.append x (s, w) = full_outcome s w x
  \/ (Reservoir.maxlen s <= - Float.overflow_bound
      /\ Reservoir.append x (s, w)
         = (Raise OverflowError,
            (Reservoir.Build (Reservoir.maxlen s) (Reservoir.i s + 1)
               (Reservoir.reservoir s),
             World_ (snd (NumpyRandom.rand (np_random w))) (py_random w)))).
Proof.
  intros Hinv. pose proof Hinv as [Hi Hlen]. pose proof overflow_bound_pos.
  destruct (Z.lt_ge_cases (Z.of_nat (length (Reservoir.reservoir s)))
              (Reservoir.maxlen s)) as [Hroom | Hfull].
  { left. by apply reservoir_append_room. }
  right.
  destruct (Z.lt_ge_cases (Z.abs (Reservoir.maxlen s))
              (Float.overflow_bound * (Reservoir.i s + 1))) as [Hfit | Hno].
  - left. by apply reservoir_append_full.
  - right. split; [| by apply reservoir_append_overflow].
    destruct (Z.lt_ge_cases (- Float.overflow_bound) (Reservoir.maxlen s))
      as [Hbound |]; [| done].
    pose proof (reservoir_quotient_fits s Hinv Hbound Hfull). lia.
Qed.

Lemma reservoir_append_contents s w x seen :
  reservoir_inv s ->
  Reservoir.reservoir s ⊆+ seen ->
  exists out s' w', Reservoir.append x (s, w) = (out, (s', w'))
    /\ Reservoir.reservoir s' ⊆+ seen ++ [x]
    /\ reservoir_inv s'.
Proof.
  intros Hinv Hsub.
  destruct (reservoir_append_any s w x Hinv)
    as (out & s' & w' & Hstep & _ & _ & _ & _ & Hinv').
  exists out, s', w'. split_and!; try done.
  destruct (reservoir_append_cases s w x Hinv) as [E | [E | [_ E]]];
    rewrite E in Hstep.
  - injection Hstep as _ <- _. cbn. by apply submseteq_skips_r.
  - unfold full_outcome in Hstep.
    destruct (NumpyRandom.rand (np_random w)) as [u g1].
    case_bool_decide; injection Hstep as _ <- _; cbn.
    + by apply insert_submseteq_snoc.
    + trans seen; [done |]. by apply submseteq_inserts_r.
  - injection Hstep as _ <- _. cbn.
    trans seen; [done |]. by apply submseteq_inserts_r.
Qed.

Lemma reservoir_run_contents xs : forall s w seen,
  reservoir_inv s ->
  Reservoir.reservoir s ⊆+ seen ->
  exists out s' w', for_each xs Reservoir.append (s, w) = (out, (s', w'))
    /\ Reservoir.reservoir s' ⊆+ seen ++ xs.
Proof.
  induction xs as [|x xs IH]; intros s w seen Hinv Hsub; cbn [for_each].
  - exists (Ok tt), s, w. by rewrite app_nil_r.
  - destruct (reservoir_append_contents s w x seen Hinv Hsub)
      as (out1 & s1 & w1 & Hstep & Hsub1 & Hinv1).
    unfold bind. rewrite Hstep. destruct out1 as [[]|e].
    + destruct (IH s1 w1 (seen ++ [x]) Hinv1 Hsub1)
        as (out & s2 & w2 & Hrun & Hsub2).
      exists out, s2, w2. rewrite Hrun.
      split; [done |]. by rewrite <- app_assoc in Hsub2.
    + exists (Raise e), s1, w1. split; [done |].
      trans (seen ++ [x]); [done |].
      replace (seen ++ x :: xs) with ((seen ++ [x]) ++ xs)
        by (by rewrite <- app_assoc).
      by apply submseteq_inserts_r.
Qed.

(** [append] reads and moves only numpy's generator: the generator of
    [random] is handed through, whatever it is. *)
Lemma reservoir_append_py_frame s x (g : rng) :
  exists r s' g',
    forall p', Reservoir.append x (s, World_ g p') = (r, (s', World_ g' p')).
Proof.
  unfold Reservoir.append, bind, Reservoir.self_, Reservoir.set_i,
    Reservoir.set_reservoir, with_np, true_div, raise, ret,
    Reservoir.lift_res, NumpyRandom.choice.
  cbn. cbv beta iota delta [np_random py_random].
  destruct (Z.of_nat (length (Reservoir.reservoir s)) <? Reservoir.maxlen s);
    [by eexists _, _, _ |].
  destruct (NumpyRandom.rand g) as [u g1].
  destruct (Reservoir.i s + 1 =? 0); [by eexists _, _, _ |].
  destruct (Qle_bool _ _); [by eexists _, _, _ |].
  case_bool_decide; [| by eexists _, _, _].
  destruct (Reservoir.maxlen s <=? 0); [by eexists _, _, _ |].
  cbn. destruct (Deque.setitem _ _ _); by eexists _, _, _.
Qed.

End ReservoirContents.

(** A run with samples in between and the run of its appends alone end in
    the same reservoir and the same state of numpy's generator, and either
    both end normally or both stop at the same exception. *)
Lemma drive_reservoir_appends {A} (ops : list (op A)) :
  forall (s : Reservoir.t A) (g p : rng),
  exists r1 r2 s' g' p',
    drive_reservoir ops (s, World_ g p) = (r1, (s', World_ g' p'))
    /\ (forall q, for_each (appended ops) Reservoir.append (s, World_ g q)
                  = (r2, (s', World_ g' q)))
    /\ match r2 with
       | Ok _ => exists outs, r1 = Ok outs
       | Raise e => r1 = Raise e
       end.
Proof.
  induction ops as [|[x|n] ops IH]; intros s g p;
    cbn [drive_reservoir appended for_each].
  - exists (Ok []), (Ok tt), s, g, p. split_and!; [done | done | by eexists].
  - destruct (reservoir_append_py_frame s x g) as (r & s1 & g1 & Hframe).
    destruct r as [[]|e].
    + destruct (IH s1 g1 p) as (r1 & r2 & s2 & g2 & p2 & Hrun & Happ & Hres).
      exists r1, r2, s2, g2, p2. unfold bind. rewrite Hframe, Hrun.
      split_and!; [done | | done]. intros q. by rewrite Hframe, Happ.
    + exists (Raise e), (Raise e), s1, g1, p. unfold bind. rewrite Hframe.
      split_and!; [done | | done]. intros q. by rewrite Hframe.
  - unfold bind at 1. unfold try.
    rewrite reservoir_sample_unfold. cbn [np_random py_random].
    destruct (Random.sample (Reservoir.reservoir s) n p) as [r p1].
    destruct (IH s g p1) as (r1 & r2 & s2 & g2 & p2 & Hrun & Happ & Hres).
    unfold bind, ret. rewrite Hrun.
    destruct r1 as [outs|e].
    + exists (Ok (r :: outs)), r2, s2, g2, p2.
      split_and!; [done | done |].
      destruct r2; [by eexists | done].
    + exists (Raise e), r2, s2, g2, p2. split_and!; [done | done |].
      destruct r2 as [|e2]; [by destruct Hres | done].
Qed.

(** X1.  Whatever the capacity and the draws, and whether the run of
    appends ends normally or is stopped by an exception, the reservoir
    holds only items that were offered to it, none more often than it was
    offered: its content is a sub-multiset of the appended items.  In
    particular it has no duplicates when the appended items have none.
    With a capacity above [- overflow_bound] the run ends normally. *)
Theorem reservoir_holds_only_offered {A} (C : Z) (xs : list A) (w : World) :
  exists s0 out s w',
    Reservoir.init C = Ok s0
    /\ for_each xs Reservoir.append (s0, w) = (out, (s, w'))
    /\ Reservoir.reservoir s ⊆+ xs
    /\ (NoDup xs -> NoDup (Reservoir.reservoir s))
    /\ (- Float.overflow_bound < C -> out = Ok tt).
Proof.
  destruct (reservoir_run_contents xs (Reservoir.Build C 0 []) w []
              (reservoir_inv_init C) (submseteq_nil_l _))
    as (out & s & w' & Hrun & Hsub).
  exists (Reservoir.Build C 0 []), out, s, w'.
  split_and!; [reflexivity | exact Hrun | exact Hsub | |].
  - intros Hnd. by apply (submseteq_NoDup _ xs).
  - intros Hbound.
    destruct (reservoir_run_inv xs (Reservoir.Build C 0 []) w
                (reservoir_inv_init C) Hbound) as (s' & w'' & Hrun' & _).
    rewrite Hrun' in Hrun. by injection Hrun as <- _ _.
Qed.

Lemma reservoir_holds_only_offered_witness :
  exists s0 s w',
    Reservoir.init 2 = Ok s0
    /\ - Float.overflow_bound < 2
    /\ NoDup [7%nat; 8%nat; 9%nat]
    /\ for_each [7%nat; 8%nat; 9%nat] Reservoir.append (s0, Example.world)
       = (Ok tt, (s, w'))
    /\ Reservoir.reservoir s ⊆+ [7%nat; 8%nat; 9%nat]
    /\ NoDup (Reservoir.reservoir s).
Proof.
  destruct (reservoir_holds_only_offered 2 [7%nat; 8%nat; 9%nat]
              Example.world)
    as (s0 & out & s & w' & Hinit & Hrun & Hsub & Hnd & Hok).
  assert (- Float.overflow_bound < 2) as Hbound by (vm_compute; reflexivity).
  assert (NoDup [7%nat; 8%nat; 9%nat]) as Hxs
    by (apply (bool_decide_unpack _); reflexivity).
  rewrite (Hok Hbound) in Hrun.
  exists s0, s, w'.
  split_and!; [exact Hinit | exact Hbound | exact Hxs | exact Hrun
              | exact Hsub | exact (Hnd Hxs)].
Defined.

(** X2.  Samples taken between appends do not change what a reservoir
    keeps: [append] draws from numpy's generator only and [sample] from
    [random]'s only, so after any interleaving the reservoir and numpy's
    generator are exactly what the appends alone would have produced, and
    an append that raises does so in both runs.  With a capacity above
    [- overflow_bound] both runs end normally. *)
Theorem reservoir_sampling_does_not_disturb {A} (C : Z) (ops : list (op A))
    (w : World) :
  exists s0 r1 r2 s w1 w2,
    Reservoir.init C = Ok s0
    /\ drive_reservoir ops (s0, w) = (r1, (s, w1))
    /\ for_each (appended ops) Reservoir.append (s0, w) = (r2, (s, w2))
    /\ np_random w1 = np_random w2
    /\ py_random w2 = py_random w
    /\ (forall e, r2 = Raise e <-> r1 = Raise e)
    /\ (- Float.overflow_bound < C ->
        r2 = Ok tt /\ exists outs, r1 = Ok outs).
Proof.
  destruct w as [g p].
  destruct (drive_reservoir_appends ops (Reservoir.Build C 0 []) g p)
    as (r1 & r2 & s & g' & p' & Hrun & Happ & Hres).
  exists (Reservoir.Build C 0 []), r1, r2, s, (World_ g' p'), (World_ g' p).
  split_and!; [reflexivity | exact Hrun | exact (Happ p) | reflexivity
              | reflexivity | |].
  - intros e. destruct r2 as [[]|e2].
    + destruct Hres as [outs ->]. split; discriminate.
    + rewrite Hres. split; intros [= ->]; reflexivity.
  - intros Hbound.
    destruct (reservoir_run_inv (appended ops) (Reservoir.Build C 0 [])
                (World_ g p) (reservoir_inv_init C) Hbound)
      as (s' & w'' & Hrun' & _).
    rewrite (Happ p) in Hrun'. injection Hrun' as -> _ _.
    split; [reflexivity | exact Hres].
Qed.

Lemma reservoir_sampling_does_not_disturb_witness :
  exists s0 outs s w1 w2,
    Reservoir.init 2 = Ok s0
    /\ - Float.overflow_bound < 2
    /\ drive_reservoir [Append 7%nat; Sample 1; Append 8%nat; Append 9%nat]
         (s0, Example.world)
       = (Ok outs, (s, w1))
    /\ for_each [7%nat; 8%nat; 9%nat] Reservoir.append (s0, Example.world)
       = (Ok tt, (s, w2))
    /\ np_random w1 = np_random w2.
Proof.
  destruct (reservoir_sampling_does_not_disturb 2
              [Append 7%nat; Sample 1; Append 8%nat; Append 9%nat]
              Example.world)
    as (s0 & r1 & r2 & s & w1 & w2 & Hinit & Hrun & Happ & Hnp & _ & _ & Hok).
  assert (- Float.overflow_bound < 2) as Hbound by (vm_compute; reflexivity).
  destruct (Hok Hbound) as [-> [outs ->]].
  exists s0, outs, s, w1, w2.
  split_and!; [exact Hinit | exact Hbound | exact Hrun | exact Happ
              | exact Hnp].
Defined.

(** X3.  A reservoir built with a capacity of zero or less stays empty
    whatever is appended.  With a capacity above [- overflow_bound] every
    append is accepted without raising and only the counter moves; with a
    capacity of [- overflow_bound] or less the first append raises
    [OverflowError], after the counter has moved. *)
Theorem reservoir_without_capacity_stays_empty {A} (C : Z) (xs : list A)
    (w : World) :
  C <= 0 ->
  exists s0 out s w',
    Reservoir.init C = Ok s0
    /\ for_each xs Reservoir.append (s0, w) = (out, (s, w'))
    /\ Reservoir.reservoir s = []
    /\ (- Float.overflow_bound < C ->
        out = Ok tt /\ Reservoir.i s = Z.of_nat (length xs))
    /\ (C <= - Float.overflow_bound -> xs <> [] ->
        out = Raise OverflowError /\ Reservoir.i s = 1).
Proof.
  intros HC.
  destruct (reservoir_run_any xs (Reservoir.Build C 0 []) w
              (reservoir_inv_init C))
    as (out & s & w' & Hrun & _ & Hm & _ & _ & [_ Hlen]).
  cbn in Hm.
  exists (Reservoir.Build C 0 []), out, s, w'.
  split_and!; [reflexivity | exact Hrun | | |].
  - apply length_zero_iff_nil. lia.
  - intros Hbound.
    destruct (reservoir_run_inv xs (Reservoir.Build C 0 []) w
                (reservoir_inv_init C) Hbound)
      as (s' & w'' & Hrun' & _ & Hi & _).
    rewrite Hrun' in Hrun. injection Hrun as <- <- _. by cbn in Hi.
  - intros Hbig Hne. destruct xs as [|x xs]; [done |].
    cbn [for_each] in Hrun. unfold bind in Hrun.
    rewrite reservoir_append_overflow in Hrun by (cbn; lia).
    by injection Hrun as <- <- _.
Qed.

Lemma reservoir_without_capacity_stays_empty_witness :
  0 <= 0
  /\ - Float.overflow_bound < 0
  /\ exists s0 s w',
       Reservoir.init 0 = Ok s0
       /\ for_each [7; 8] Reservoir.append (s0, Example.world)
          = (Ok tt, (s, w'))
       /\ Reservoir.reservoir s = []
       /\ Reservoir.i s = 2.
Proof.
  assert (0 <= 0) as H by lia.
  assert (- Float.overflow_bound < 0) as Hbound by (vm_compute; reflexivity).
  split; [exact H |]. split; [exact Hbound |].
  destruct (reservoir_without_capacity_stays_empty 0 [7; 8] Example.world H)
    as (s0 & out & s & w' & Hinit & Hrun & Hnil & Hok & _).
  destruct (Hok Hbound) as [-> Hi].
  exists s0, s, w'.
  split_and!; [exact Hinit | exact Hrun | exact Hnil | exact Hi].
Defined.

(** ** The buffers: further sampling and capacity facts *)

Lemma random_sample_negative {A} (population : list A) (k : Z) (g : rng) :
  k < 0 -> Random.sample population k g = (Raise ValueError, g).
Proof.
  intros Hk. unfold Random.sample.
  by replace (0 <=? k) with false by lia.
Qed.

(** X4.  A circular buffer of capacity [0 <= C < 2^63] holds, after any
    run of appends and samples, the last [min(n, C)] of the [n] appended
    items in order; with [C = 0] it is always empty. *)
Theorem circular_buffer_occupancy {A} (C : Z) (ops : list (op A)) (w : World) :
  0 <= C < 2 ^ 63 ->
  exists b0 outs b w',
    CircularBuffer.init (Some C) = Ok b0
    /\ drive ops (b0, w) = (Ok outs, (b, w'))
    /\ CircularBuffer.buffer b
       = drop (length (appended ops) - Z.to_nat C) (appended ops)
    /\ CircularBuffer.len b = Z.min (Z.of_nat (length (appended ops))) C
    /\ (C = 0 -> CircularBuffer.buffer b = []).
Proof.
  intros [HC _].
  destruct (drive_bounded C ops [] w HC) as (outs & w' & Hrun).
  unfold CircularBuffer.init, Deque.new.
  destruct (Z.ltb_spec C 0); [lia |].
  eexists _, outs, _, w'. split_and!; [reflexivity | exact Hrun | ..].
  - reflexivity.
  - unfold CircularBuffer.len, keep_last. cbn.
    rewrite length_drop. lia.
  - intros ->. cbn. unfold keep_last. cbn.
    rewrite Nat.sub_0_r. apply drop_all.
Qed.

Lemma circular_buffer_occupancy_witness :
  0 <= 0 < 2 ^ 63
  /\ exists b0 outs b w',
       CircularBuffer.init (Some 0) = Ok b0
       /\ drive [Append 7; Sample 0; Append 8] (b0, Example.world)
          = (Ok outs, (b, w'))
       /\ CircularBuffer.buffer b = [].
Proof.
  assert (0 <= 0 < 2 ^ 63) as H by (split; vm_compute; [discriminate | done]).
  split; [exact H |].
  destruct (circular_buffer_occupancy 0 [Append 7; Sample 0; Append 8]
              Example.world H)
    as (b0 & outs & b & w' & Hinit & Hrun & _ & _ & Hnil).
  exists b0, outs, b, w'. split_and!; [exact Hinit | exact Hrun |].
  exact (Hnil eq_refl).
Defined.

(** X6.  [sample(n)] with a negative [n] raises [ValueError] on both
    buffers and changes neither the buffer nor the generators. *)
Theorem sample_negative {A} (r : Reservoir.t A) (c : CircularBuffer.t A)
    (w : World) (n : Z) :
  n < 0 ->
  Reservoir.sample n (r, w) = (Raise ValueError, (r, w))
  /\ CircularBuffer.sample n (c, w) = (Raise ValueError, (c, w)).
Proof.
  intros Hn. rewrite reservoir_sample_unfold, circular_sample_unfold.
  rewrite !random_sample_negative by exact Hn. by destruct w.
Qed.

Lemma sample_negative_witness :
  -1 < 0
  /\ Reservoir.sample (-1) (Reservoir.Build 3 2 [10; 20], Example.world)
     = (Raise ValueError, (Reservoir.Build 3 2 [10; 20], Example.world))
  /\ CircularBuffer.sample (-1)
       (CircularBuffer.Build (Some 3) [10; 20], Example.world)
     = (Raise ValueError,
        (CircularBuffer.Build (Some 3) [10; 20], Example.world)).
Proof.
  assert (-1 < 0) as H by lia.
  destruct (sample_negative (Reservoir.Build 3 2 [10; 20])
              (CircularBuffer.Build (Some 3) [10; 20]) Example.world (-1) H)
    as [H1 H2].
  split_and!; [exact H | exact H1 | exact H2].
Defined.

(** X7.  Asking a buffer for as many items as it holds returns all of its
    records, each once, in some order: the sample is a permutation of the
    contents. *)
Theorem sample_all_is_permutation {A} (r : Reservoir.t A)
    (c : CircularBuffer.t A) (w : World) :
  (exists out w',
     Reservoir.sample (Reservoir.len r) (r, w) = (Ok out, (r, w'))
     /\ out ≡ₚ Reservoir.reservoir r)
  /\ (exists out w',
        CircularBuffer.sample (CircularBuffer.len c) (c, w) = (Ok out, (c, w'))
        /\ out ≡ₚ CircularBuffer.buffer c).
Proof.
  split.
  - destruct (reservoir_sample_ok r w (Reservoir.len r))
      as (out & w' & Hs & Hlen & Hsub & _); [unfold Reservoir.len; lia |].
    exists out, w'. split; [exact Hs |].
    apply submseteq_length_Permutation; [done |].
    unfold Reservoir.len in Hlen. lia.
  - destruct (circular_sample_ok c w (CircularBuffer.len c))
      as (out & w' & Hs & Hlen & Hsub & _); [unfold CircularBuffer.len; lia |].
    exists out, w'. split; [exact Hs |].
    apply submseteq_length_Permutation; [done |].
    unfold CircularBuffer.len in Hlen. lia.
Qed.

(** ** Agent: the memories *)

Lemma on_replay_unfold {X} (m : M (CircularBuffer.t transition * World) X)
    (self : Agent.t) (sess : TF.Session) (w : World) :
  Agent.on_replay m (self, sess, w)
  = let '(r, (replay, w')) := m (Agent.replay_memory self, w) in
    (r, (AgentOps.set_replay_memory self replay, sess, w')).
Proof. reflexivity. Qed.

Lemma on_supervised_unfold {X}
    (m : M (Reservoir.t state_action_pair * World) X)
    (self : Agent.t) (sess : TF.Session) (w : World) :
  Agent.on_supervised m (self, sess, w)
  = let '(r, (supervised, w')) := m (Agent.supervised_memory self, w) in
    (r, (AgentOps.set_supervised_memory self supervised, sess, w')).
Proof. reflexivity. Qed.

Lemma set_replay_memory_same (self : Agent.t) :
  AgentOps.set_replay_memory self (Agent.replay_memory self) = self.
Proof. by destruct self. Qed.

Lemma set_supervised_memory_same (self : Agent.t) :
  AgentOps.set_supervised_memory self (Agent.supervised_memory self) = self.
Proof. by destruct self. Qed.

(** A run of [deque.append] from a deque that respects its bound. *)
Lemma deque_run_bounded {A} (C : Z) (xs : list A) : forall (d : list A),
  0 <= C -> Z.of_nat (length d) <= C ->
  foldl (Deque.append (Some C)) d xs = keep_last C (d ++ xs).
Proof.
  intros d HC Hd.
  assert (d = keep_last C d) as Hk.
  { unfold keep_last. replace (length d - Z.to_nat C)%nat with 0%nat by lia.
    done. }
  rewrite Hk at 1. clear Hk Hd. revert d.
  induction xs as [|x xs IH]; intros d; cbn [foldl].
  - by rewrite app_nil_r.
  - rewrite deque_append_keep_last by done. rewrite IH.
    by rewrite <- app_assoc.
Qed.

Lemma deque_run_unbounded {A} (xs : list A) : forall (d : list A),
  foldl (Deque.append None) d xs = d ++ xs.
Proof.
  induction xs as [|x xs IH]; intros d; cbn [foldl].
  - by rewrite app_nil_r.
  - rewrite IH. cbn. by rewrite <- app_assoc.
Qed.

Lemma append_replay_memory_run (ts : list transition) :
  forall (self : Agent.t) (sess : TF.Session) (w : World),
  Agent.append_replay_memory ts (self, sess, w)
  = (Ok tt,
     (AgentOps.set_replay_memory self
        (CircularBuffer.Build
           (CircularBuffer.maxlen (Agent.replay_memory self))
           (foldl (Deque.append
                     (CircularBuffer.maxlen (Agent.replay_memory self)))
                  (CircularBuffer.buffer (Agent.replay_memory self)) ts)),
      sess, w)).
Proof.
  unfold Agent.append_replay_memory.
  induction ts as [|tr ts IH]; intros self sess w; cbn [for_each foldl].
  - destruct self as [[m b] ? ? ? ? ? ? ? ?]. reflexivity.
  - unfold bind. rewrite on_replay_unfold. cbn [CircularBuffer.append].
    rewrite IH. reflexivity.
Qed.

(** X8.  [append_replay_memory] never raises and touches nothing but the
    replay memory: the supervised memory, the session and both generators
    are as before.  Afterwards the replay memory holds, in order, its old
    contents followed by the new transitions, cut down to the last
    [max_replay] of them when it is bounded. *)
Theorem append_replay_memory_spec (ts : list transition) (self : Agent.t)
    (sess : TF.Session) (w : World) :
  exists replay,
    Agent.append_replay_memory ts (self, sess, w)
    = (Ok tt, (AgentOps.set_replay_memory self replay, sess, w))
    /\ CircularBuffer.maxlen replay
       = CircularBuffer.maxlen (Agent.replay_memory self)
    /\ (CircularBuffer.maxlen (Agent.replay_memory self) = None ->
          CircularBuffer.buffer replay
          = CircularBuffer.buffer (Agent.replay_memory self) ++ ts)
    /\ (forall C,
          CircularBuffer.maxlen (Agent.replay_memory self) = Some C ->
          0 <= C ->
          CircularBuffer.len (Agent.replay_memory self) <= C ->
          CircularBuffer.buffer replay
          = drop (length (CircularBuffer.buffer (Agent.replay_memory self)
                          ++ ts) - Z.to_nat C)
                 (CircularBuffer.buffer (Agent.replay_memory self) ++ ts)).
Proof.
  eexists. split; [apply append_replay_memory_run |].
  cbn [CircularBuffer.maxlen CircularBuffer.buffer].
  split_and!; [reflexivity | |].
  - intros ->. apply deque_run_unbounded.
  - intros C -> HC Hlen. by apply deque_run_bounded.
Qed.

Lemma append_supervised_memory_run (ps : list state_action_pair) :
  forall (self : Agent.t) (sess : TF.Session) (w : World),
  Agent.append_supervised_memory ps (self, sess, w)
  = let '(r, (supervised, w')) :=
      for_each ps Reservoir.append (Agent.supervised_memory self, w) in
    (r, (AgentOps.set_supervised_memory self supervised, sess, w')).
Proof.
  unfold Agent.append_supervised_memory.
  induction ps as [|p ps IH]; intros self sess w; cbn [for_each].
  - cbn. by rewrite set_supervised_memory_same.
  - unfold bind. rewrite on_supervised_unfold.
    destruct (Reservoir.append p (Agent.supervised_memory self, w))
      as [[[]|e] [s1 w1]]; [| reflexivity].
    rewrite IH. cbn [AgentOps.set_supervised_memory Agent.supervised_memory].
    destruct (for_each ps Reservoir.append (s1, w1)) as [r [s2 w2]].
    reflexivity.
Qed.

(** X9.  On an agent whose supervised memory is in a state that appends
    produce ([reservoir_inv]) and has a capacity above [- overflow_bound],
    [append_supervised_memory] never raises and touches nothing but that
    memory and numpy's generator.  The counter grows by the number of
    pairs, the capacity stays, and the memory holds only old entries and
    offered pairs. *)
Theorem append_supervised_memory_spec (ps : list state_action_pair)
    (self : Agent.t) (sess : TF.Session) (w : World) :
  reservoir_inv (Agent.supervised_memory self) ->
  - Float.overflow_bound < Reservoir.maxlen (Agent.supervised_memory self) ->
  exists supervised w',
    Agent.append_supervised_memory ps (self, sess, w)
    = (Ok tt, (AgentOps.set_supervised_memory self supervised, sess, w'))
    /\ py_random w' = py_random w
    /\ Reservoir.maxlen supervised
       = Reservoir.maxlen (Agent.supervised_memory self)
    /\ Reservoir.i supervised
       = Reservoir.i (Agent.supervised_memory self) + Z.of_nat (length ps)
    /\ reservoir_inv supervised
    /\ Reservoir.reservoir supervised
       ⊆+ Reservoir.reservoir (Agent.supervised_memory self) ++ ps.
Proof.
  intros Hinv Hbound. rewrite append_supervised_memory_run.
  destruct (reservoir_run_inv ps (Agent.supervised_memory self) w Hinv
              Hbound)
    as (s & w' & Hrun & Hm & Hi & Hpy & Hinv').
  destruct (reservoir_run_contents ps (Agent.supervised_memory self) w
              (Reservoir.reservoir (Agent.supervised_memory self)) Hinv
              ltac:(done))
    as (out2 & s2 & w2 & Hrun2 & Hsub).
  rewrite Hrun in Hrun2. injection Hrun2 as _ <- <-.
  rewrite Hrun. exists s, w'. by split_and!.
Qed.

Lemma append_supervised_memory_spec_witness :
  exists self supervised w',
    Agent.init (fun x => x) "a" 1 1 (Some 3) 1 = Ok self
    /\ reservoir_inv (Agent.supervised_memory self)
    /\ - Float.overflow_bound < Reservoir.maxlen (Agent.supervised_memory self)
    /\ Agent.append_supervised_memory
         [StateAction [0%Qc] 0; StateAction [1%Qc] 0]
         (self, Example.sess, Example.world)
       = (Ok tt,
          (AgentOps.set_supervised_memory self supervised, Example.sess, w'))
    /\ Reservoir.i supervised = 2.
Proof.
  assert (exists self, Agent.init (fun x => x) "a" 1 1 (Some 3) 1 = Ok self)
    as [self Hinit] by (eexists; reflexivity).
  assert (reservoir_inv (Agent.supervised_memory self)) as Hinv.
  { apply init_inv in Hinit as (replay & _ & ->). apply reservoir_inv_init. }
  assert (- Float.overflow_bound
          < Reservoir.maxlen (Agent.supervised_memory self)) as Hbound.
  { apply init_inv in Hinit as (replay & _ & ->). vm_compute. reflexivity. }
  destruct (append_supervised_memory_spec
              [StateAction [0%Qc] 0; StateAction [1%Qc] 0]
              self Example.sess Example.world Hinv Hbound)
    as (supervised & w' & Hrun & _ & _ & Hi & _).
  exists self, supervised, w'.
  split_and!; [exact Hinit | exact Hinv | exact Hbound | exact Hrun |].
  rewrite Hi. apply init_inv in Hinit as (replay & _ & ->). reflexivity.
Defined.

Lemma append_replay_memory_spec_witness :
  exists self replay,
    Agent.init (fun x => x) "a" 1 1 (Some 1) 1 = Ok self
    /\ Agent.append_replay_memory
         [Transition [0%Qc] 0 [0%Qc] 0%Qc false;
          Transition [1%Qc] 0 [1%Qc] 1%Qc true]
         (self, Example.sess, Example.world)
       = (Ok tt,
          (AgentOps.set_replay_memory self replay, Example.sess,
           Example.world))
    /\ CircularBuffer.buffer replay = [Transition [1%Qc] 0 [1%Qc] 1%Qc true].
Proof.
  assert (exists self, Agent.init (fun x => x) "a" 1 1 (Some 1) 1 = Ok self)
    as [self Hinit] by (eexists; reflexivity).
  destruct (append_replay_memory_spec
              [Transition [0%Qc] 0 [0%Qc] 0%Qc false;
               Transition [1%Qc] 0 [1%Qc] 1%Qc true]
              self Example.sess Example.world)
    as (replay & Hrun & _ & _ & Hb).
  exists self, replay. split_and!; [exact Hinit | exact Hrun |].
  apply init_inv in Hinit as (replay0 & Hr0 & ->).
  injection Hr0 as <-.
  rewrite (Hb 1 eq_refl ltac:(lia) ltac:(vm_compute; discriminate)).
  reflexivity.
Defined.

(** ** Agent: the training steps *)

Section Training.
Variable q_trainer : Agent.t -> Agent.q_feed -> TF.Session -> TF.Session.
Variable log : Qc -> Qc.
Variable policy_trainer :
  Agent.t -> AgentOps.policy_feed -> TF.Session -> TF.Session.

Lemma train_q_network_unfold (self : Agent.t) (sess : TF.Session) (w : World)
    (n : Z) :
  Agent.train_q_network q_trainer n (self, sess, w)
  = match Random.sample (CircularBuffer.buffer (Agent.replay_memory self)) n
            (py_random w) with
    | (Ok minibatch, g') =>
        Agent.run_q_step q_trainer (Agent.make_q_feed minibatch)
          (self, sess, World_ (np_random w) g')
    | (Raise e, g') => (Raise e, (self, sess, World_ (np_random w) g'))
    end.
Proof.
  unfold Agent.train_q_network, bind. rewrite on_replay_unfold.
  rewrite circular_sample_unfold.
  destruct (Random.sample _ n (py_random w)) as [[mb|e] g'];
    by rewrite set_replay_memory_same.
Qed.

Lemma train_policy_network_unfold (self : Agent.t) (sess : TF.Session)
    (w : World) (n : Z) :
  AgentOps.train_policy_network log policy_trainer n (self, sess, w)
  = match Random.sample (Reservoir.reservoir (Agent.supervised_memory self)) n
            (py_random w) with
    | (Ok minibatch, g') =>
        AgentOps.run_policy_step log policy_trainer
          (AgentOps.make_policy_feed minibatch)
          (self, sess, World_ (np_random w) g')
    | (Raise e, g') => (Raise e, (self, sess, World_ (np_random w) g'))
    end.
Proof.
  unfold AgentOps.train_policy_network, bind. rewrite on_supervised_unfold.
  rewrite reservoir_sample_unfold.
  destruct (Random.sample _ n (py_random w)) as [[mb|e] g'];
    by rewrite set_supervised_memory_same.
Qed.

(** A sample larger than the memory ends the training step before the
    session is run. *)
Lemma train_too_large (self : Agent.t) (sess : TF.Session)
    (w : World) (batch_size : Z) :
  (CircularBuffer.len (Agent.replay_memory self) < batch_size ->
   Agent.train_q_network q_trainer batch_size (self, sess, w)
   = (Raise ValueError, (self, sess, w)))
  /\ (Reservoir.len (Agent.supervised_memory self) < batch_size ->
      AgentOps.train_policy_network log policy_trainer batch_size
        (self, sess, w)
      = (Raise ValueError, (self, sess, w))).
Proof.
  split; intros Hn.
  - rewrite train_q_network_unfold.
    rewrite random_sample_too_large by exact Hn. by destruct w.
  - rewrite train_policy_network_unfold.
    rewrite random_sample_too_large by exact Hn. by destruct w.
Qed.

(** X10.  A training step asked for more transitions (or pairs) than the
    memory holds, or for a negative number, raises [ValueError] before the
    session is run: the agent, the session and the generators are exactly
    as before, so no parameter has been updated. *)
Theorem train_without_enough_data (self : Agent.t) (sess : TF.Session)
    (w : World) (batch_size : Z) :
  (batch_size < 0
   \/ CircularBuffer.len (Agent.replay_memory self) < batch_size ->
   Agent.train_q_network q_trainer batch_size (self, sess, w)
   = (Raise ValueError, (self, sess, w)))
  /\ (batch_size < 0
      \/ Reservoir.len (Agent.supervised_memory self) < batch_size ->
      AgentOps.train_policy_network log policy_trainer batch_size
        (self, sess, w)
      = (Raise ValueError, (self, sess, w))).
Proof.
  split; intros Hn.
  - rewrite train_q_network_unfold.
    destruct Hn as [Hn | Hn];
      [rewrite random_sample_negative by exact Hn
      | rewrite random_sample_too_large by exact Hn];
      by destruct w.
  - rewrite train_policy_network_unfold.
    destruct Hn as [Hn | Hn];
      [rewrite random_sample_negative by exact Hn
      | rewrite random_sample_too_large by exact Hn];
      by destruct w.
Qed.

(** X11.  Training never changes a memory: after [train_q_network] or
    [train_policy_network], successful or not, the agent (both memories
    included) and numpy's generator are as before, and when the call
    raises the session is as before too. *)
Theorem train_leaves_memories (self : Agent.t) (sess : TF.Session)
    (w : World) (batch_size : Z) :
  (let '(r, (self', sess', w')) :=
     Agent.train_q_network q_trainer batch_size (self, sess, w) in
   self' = self /\ np_random w' = np_random w
   /\ (forall e, r = Raise e -> sess' = sess))
  /\ (let '(r, (self', sess', w')) :=
        AgentOps.train_policy_network log policy_trainer batch_size
          (self, sess, w) in
      self' = self /\ np_random w' = np_random w
      /\ (forall e, r = Raise e -> sess' = sess)).
Proof.
  split.
  - rewrite train_q_network_unfold.
    destruct (Random.sample _ batch_size (py_random w)) as [[mb|e] g'];
      [| by split_and!].
    unfold Agent.run_q_step.
    destruct (Agent.q_loss self sess (Agent.make_q_feed mb));
      split_and!; try done.
  - rewrite train_policy_network_unfold.
    destruct (Random.sample _ batch_size (py_random w)) as [[mb|e] g'];
      [| by split_and!].
    unfold AgentOps.run_policy_step.
    destruct (AgentOps.policy_loss log self sess
                (AgentOps.make_policy_feed mb));
      split_and!; try done.
Qed.

(** X12.  A freshly built agent has two empty memories, and any training
    step on it with a batch size of at least one raises [ValueError] and
    changes nothing. *)
Theorem fresh_agent_cannot_train softmax (name : string)
    (input_dim action_dim : Z) (max_replay : option Z) (max_supervised : Z)
    (self : Agent.t) (sess : TF.Session) (w : World) (batch_size : Z) :
  Agent.init softmax name input_dim action_dim max_replay max_supervised
    = Ok self ->
  1 <= batch_size ->
  CircularBuffer.buffer (Agent.replay_memory self) = []
  /\ Reservoir.reservoir (Agent.supervised_memory self) = []
  /\ Reservoir.i (Agent.supervised_memory self) = 0
  /\ Agent.train_q_network q_trainer batch_size (self, sess, w)
     = (Raise ValueError, (self, sess, w))
  /\ AgentOps.train_policy_network log policy_trainer batch_size
       (self, sess, w)
     = (Raise ValueError, (self, sess, w)).
Proof.
  intros Hinit Hn.
  destruct (init_inv _ _ _ _ _ _ _ Hinit) as (replay & Hreplay & Hself).
  assert (CircularBuffer.buffer replay = []) as Hempty.
  { unfold CircularBuffer.init in Hreplay.
    destruct (Deque.new max_replay) as [d|] eqn:Hd; [| discriminate].
    injection Hreplay as <-. cbn. unfold Deque.new in Hd.
    destruct max_replay as [m|]; [destruct (m <? 0) |]; by simplify_eq. }
  assert (CircularBuffer.buffer (Agent.replay_memory self) = []) as Hb
    by (by rewrite Hself).
  assert (Reservoir.reservoir (Agent.supervised_memory self) = []) as Hr
    by (by rewrite Hself).
  destruct (train_too_large self sess w batch_size) as [Hq Hp].
  split_and!; [exact Hb | exact Hr | by rewrite Hself | |].
  - apply Hq. unfold CircularBuffer.len. rewrite Hb. cbn. lia.
  - apply Hp. unfold Reservoir.len. rewrite Hr. cbn. lia.
Qed.

End Training.

Lemma train_without_enough_data_witness :
  exists self,
    Agent.init (fun x => x) "a" 1 1 (Some 3) 3 = Ok self
    /\ CircularBuffer.len (Agent.replay_memory self) < 2
    /\ Agent.train_q_network (fun _ _ sess => sess) 2
         (self, Example.sess, Example.world)
       = (Raise ValueError, (self, Example.sess, Example.world)).
Proof.
  assert (exists self, Agent.init (fun x => x) "a" 1 1 (Some 3) 3 = Ok self)
    as [self Hinit] by (eexists; reflexivity).
  assert (CircularBuffer.len (Agent.replay_memory self) < 2) as Hlen.
  { apply init_inv in Hinit as (replay & Hr & ->). injection Hr as <-.
    vm_compute. reflexivity. }
  destruct (train_without_enough_data (fun _ _ sess => sess) (fun x => x)
              (fun _ _ sess => sess) self Example.sess Example.world 2)
    as [Hq _].
  exists self. split_and!; [exact Hinit | exact Hlen |].
  exact (Hq (or_intror Hlen)).
Defined.

Lemma fresh_agent_cannot_train_witness :
  exists self,
    Agent.init (fun x => x) "a" 1 1 (Some 3) 3 = Ok self
    /\ 1 <= 1
    /\ Agent.train_q_network (fun _ _ sess => sess) 1
         (self, Example.sess, Example.world)
       = (Raise ValueError, (self, Example.sess, Example.world))
    /\ AgentOps.train_policy_network (fun x => x) (fun _ _ sess => sess) 1
         (self, Example.sess, Example.world)
       = (Raise ValueError, (self, Example.sess, Example.world)).
Proof.
  assert (exists self, Agent.init (fun x => x) "a" 1 1 (Some 3) 3 = Ok self)
    as [self Hinit] by (eexists; reflexivity).
  assert (1 <= 1) as H1 by lia.
  destruct (fresh_agent_cannot_train (fun _ _ sess => sess) (fun x => x)
              (fun _ _ sess => sess) (fun x => x) "a" 1 1 (Some 3) 3
              self Example.sess Example.world 1 Hinit H1)
    as (_ & _ & _ & Hq & Hp).
  exists self. split_and!; [exact Hinit | exact H1 | exact Hq | exact Hp].
Defined.

(** ** Agent: prediction *)

(** The networks built by [__init__] read their own six variables and
    nothing else. *)
Lemma dense_agree (sess sess' : TF.Session) (scope layer : string)
    (act : vec -> vec) :
  sess !! TF.kernel_name scope layer = sess' !! TF.kernel_name scope layer ->
  sess !! TF.bias_name scope layer = sess' !! TF.bias_name scope layer ->
  TF.dense sess scope layer act = TF.dense sess' scope layer act.
Proof. unfold TF.dense. by intros -> ->. Qed.

Lemma forward_agree (scope : string) (act : vec -> vec)
    (sess sess' : TF.Session) :
  agree_on scope sess sess' ->
  Agent.forward scope act sess = Agent.forward scope act sess'.
Proof.
  intros Hag. unfold Agent.forward, Agent.hidden_layers, Agent.hidden_stack.
  destruct (Hag "dense") as [Hk0 Hb0]; [by repeat constructor |].
  destruct (Hag "dense_1") as [Hk1 Hb1]; [by repeat constructor |].
  destruct (Hag Agent.output_layer) as [Hk2 Hb2]; [by repeat constructor |].
  rewrite (dense_agree sess sess' scope "dense" TF.relu Hk0 Hb0).
  rewrite (dense_agree sess sess' scope "dense_1" TF.relu Hk1 Hb1).
  by rewrite (dense_agree sess sess' scope Agent.output_layer act Hk2 Hb2).
Qed.

Lemma forward_cases (scope : string) (act : vec -> vec) (sess : TF.Session) :
  (exists f, Agent.forward scope act sess = Ok f)
  \/ Agent.forward scope act sess = Raise FailedPreconditionError.
Proof.
  unfold Agent.forward, Agent.hidden_layers, Agent.hidden_stack, TF.dense.
  repeat case_match; simplify_eq; eauto.
Qed.

(** The body of the prediction methods on a network that was created
    for [input_dim]: past the two assertions the feed is accepted. *)
Lemma predict_unfold (scope : string) (act : vec -> vec) (input_dim : Z)
    (state : ndarray) (sess : TF.Session) :
  let net := Agent.create_network scope input_dim act in
  (assert (Z.of_nat (length (shape state)) =? 2) ;;;
   d <~ Agent.shape_at state 1 ;;
   assert (d =? input_dim) ;;;
   sess <~ get ;;
   fed <~ Agent.lift_res (Agent.feed_input net state) ;;
   Agent.lift_res (Agent.output net sess fed)) sess
  = match shape state with
    | [_; d] =>
        if d =? input_dim then (Agent.output net sess (rows state), sess)
        else (Raise AssertionError, sess)
    | _ => (Raise AssertionError, sess)
    end.
Proof.
  intros net.
  unfold bind, assert, Agent.shape_at, get, Agent.lift_res, Agent.feed_input.
  destruct (shape state) as [|a [|d [|c l]]]; try reflexivity.
  - cbn. destruct (d =? input_dim); [| reflexivity].
    by destruct (Agent.output net sess (rows state)).
  - destruct (Z.eqb_spec (Z.of_nat (length (a :: d :: c :: l))) 2) as [E|];
      [cbn [length] in E; lia | reflexivity].
Qed.

Lemma init_policy_network softmax name input_dim action_dim max_replay
    max_supervised self :
  Agent.init softmax name input_dim action_dim max_replay max_supervised
    = Ok self ->
  Agent.policy_network self
  = Agent.create_network (TF.variable_scope ("agent_" +:+ name) "policy")
      input_dim softmax
  /\ Agent.input_dim self = input_dim
  /\ Agent.action_dim self = action_dim.
Proof. intros Hinit. by apply init_inv in Hinit as (replay & _ & ->). Qed.

Lemma create_network_output_cases scope input_dim act (sess : TF.Session)
    (x : mat) :
  (exists f, Agent.forward scope act sess = Ok f
             /\ Agent.output (Agent.create_network scope input_dim act) sess x
                = Ok (map f x))
  \/ (Agent.forward scope act sess = Raise FailedPreconditionError
      /\ Agent.output (Agent.create_network scope input_dim act) sess x
         = Raise FailedPreconditionError).
Proof.
  destruct (forward_cases scope act sess) as [[f Hf] | Hf].
  - left. exists f. split; [done |]. by apply create_network_output.
  - right. split; [done |].
    unfold Agent.create_network, Agent.output. by rewrite Hf.
Qed.

(** X13.  On an agent built by [__init__], [predict_q] and
    [predict_policy] reject every array that is not two-dimensional with
    [AssertionError]; the subscript [state.shape[1]] is guarded by the
    assertion before it, so neither method ever raises [IndexError].
    Neither method changes the session. *)
Theorem predict_guards_rank softmax name input_dim action_dim max_replay
    max_supervised (self : Agent.t) (state : ndarray) (sess : TF.Session) :
  Agent.init softmax name input_dim action_dim max_replay max_supervised
    = Ok self ->
  (Z.of_nat (length (shape state)) <> 2 ->
     Agent.predict_q self state sess = (Raise AssertionError, sess)
     /\ Agent.predict_policy self state sess = (Raise AssertionError, sess))
  /\ fst (Agent.predict_q self state sess) <> Raise IndexError
  /\ fst (Agent.predict_policy self state sess) <> Raise IndexError
  /\ snd (Agent.predict_q self state sess) = sess
  /\ snd (Agent.predict_policy self state sess) = sess.
Proof.
  intros Hinit.
  destruct (init_networks _ _ _ _ _ _ _ Hinit) as [Eq _].
  destruct (init_policy_network _ _ _ _ _ _ _ Hinit) as (Ep & Ei & _).
  unfold Agent.predict_q, Agent.predict_policy.
  rewrite Eq, Ep, Ei, !predict_unfold.
  split.
  { intros Hrank. destruct (shape state) as [|a [|d [|c l]]]; try done. }
  destruct (shape state) as [|a [|d [|c l]]]; try done.
  destruct (d =? input_dim); [| done].
  cbn [fst snd].
  destruct (create_network_output_cases
              (TF.variable_scope ("agent_" +:+ name) "current_q") input_dim
              (fun x => x) sess (rows state)) as [(f & _ & ->) | [_ ->]];
  destruct (create_network_output_cases
              (TF.variable_scope ("agent_" +:+ name) "policy") input_dim
              softmax sess (rows state)) as [(g & _ & ->) | [_ ->]];
  done.
Qed.

Lemma predict_guards_rank_witness :
  exists self,
    Agent.init (fun x => x) "a" 1 1 (Some 3) 3 = Ok self
    /\ Z.of_nat (length (shape (NdArray [1] [[0%Qc]]))) <> 2
    /\ Agent.predict_q self (NdArray [1] [[0%Qc]]) Example.sess
       = (Raise AssertionError, Example.sess).
Proof.
  assert (exists self, Agent.init (fun x => x) "a" 1 1 (Some 3) 3 = Ok self)
    as [self Hinit] by (eexists; reflexivity).
  assert (Z.of_nat (length (shape (NdArray [1] [[0%Qc]]))) <> 2) as Hrank
    by (vm_compute; discriminate).
  destruct (predict_guards_rank (fun x => x) "a" 1 1 (Some 3) 3 self
              (NdArray [1] [[0%Qc]]) Example.sess Hinit) as [H _].
  exists self. split_and!; [exact Hinit | exact Hrank |].
  exact (proj1 (H Hrank)).
Defined.


(** X15.  [predict_q] depends on the session only through the six
    variables of the current value network, and [predict_policy] only
    through those of the policy network: two sessions that agree on them
    give the same answer, whatever the target network's (or anything
    else's) variables hold. *)
Theorem predict_reads_own_variables softmax name input_dim action_dim
    max_replay max_supervised (self : Agent.t) (state : ndarray)
    (sess sess' : TF.Session) :
  Agent.init softmax name input_dim action_dim max_replay max_supervised
    = Ok self ->
  (agree_on (TF.variable_scope ("agent_" +:+ name) "current_q") sess sess' ->
   fst (Agent.predict_q self state sess)
   = fst (Agent.predict_q self state sess'))
  /\ (agree_on (TF.variable_scope ("agent_" +:+ name) "policy") sess sess' ->
      fst (Agent.predict_policy self state sess)
      = fst (Agent.predict_policy self state sess')).
Proof.
  intros Hinit.
  destruct (init_networks _ _ _ _ _ _ _ Hinit) as [Eq _].
  destruct (init_policy_network _ _ _ _ _ _ _ Hinit) as (Ep & Ei & _).
  unfold Agent.predict_q, Agent.predict_policy.
  rewrite Eq, Ep, Ei, !predict_unfold.
  split; intros Hag;
    destruct (shape state) as [|a [|d [|c l]]]; try done;
    destruct (d =? input_dim); try done; cbn [fst];
    unfold Agent.create_network, Agent.output;
    by rewrite (forward_agree _ _ sess sess' Hag).
Qed.


Lemma retargeted_agree :
  agree_on (TF.variable_scope ("agent_" +:+ "a") "current_q")
    Example.sess retargeted_session.
Proof.
  intros layer Hin. unfold retargeted_session.
  split; symmetry; apply lookup_insert_ne;
    apply list_elem_of_In in Hin; cbn in Hin;
    destruct Hin as [<- | [<- | [<- | []]]]; discriminate.
Qed.

Lemma predict_reads_own_variables_witness :
  exists self,
    Agent.init (fun x => x) "a" 1 1 (Some 3) 3 = Ok self
    /\ agree_on (TF.variable_scope ("agent_" +:+ "a") "current_q")
         Example.sess retargeted_session
    /\ fst (Agent.predict_q self (NdArray [1; 1] [[0%Qc]]) Example.sess)
       = fst (Agent.predict_q self (NdArray [1; 1] [[0%Qc]])
                retargeted_session).
Proof.
  assert (exists self, Agent.init (fun x => x) "a" 1 1 (Some 3) 3 = Ok self)
    as [self Hinit] by (eexists; reflexivity).
  destruct (predict_reads_own_variables (fun x => x) "a" 1 1 (Some 3) 3 self
              (NdArray [1; 1] [[0%Qc]]) Example.sess retargeted_session
              Hinit) as [H _].
  exists self. split_and!; [exact Hinit | exact retargeted_agree |].
  exact (H retargeted_agree).
Defined.

(** ** Agent: the trained quantities *)















(** ** Agent: the value loss *)

Lemma Qc_square_nonneg (x : Qc) : (0 <= x * x)%Qc.
Proof.
  unfold Qcle, Qcmult. cbn [this Q2Qc].
  rewrite (Qred_correct (this x * this x)).
  destruct x as [[num den] canon]. cbn [this].
  unfold Qle, Qmult. cbn [Qnum Qden].
  change (Qnum (Qred 0)) with 0. change (QDen (Qred 0)) with 1. nia.
Qed.

Lemma Qc_div_nonneg (x : Qc) (n : Z) :
  (0 <= x)%Qc -> 0 <= n -> (0 <= x / Qc_of_Z n)%Qc.
Proof.
  intros Hx Hn. unfold Qcle, Qcdiv, Qcmult, Qcinv in *.
  cbn [this Q2Qc Qc_of_Z] in *.
  pose proof (Qred_correct (/ inject_Z n)) as E1.
  pose proof (Qred_correct (x * Qred (/ inject_Z n))) as E2.
  rewrite E2, E1.
  apply Qmult_le_0_compat; [exact Hx |].
  apply Qinv_le_0_compat. unfold Qle, inject_Z. cbn. lia.
Qed.

Lemma round_nonneg (prec emin : Z) (x : Q) :
  (0 <= x)%Q -> (0 <= Float.round prec emin x)%Q.
Proof.
  intros Hx. unfold Float.round.
  destruct x as [num den]. unfold Qle in Hx. cbn [Qnum Qden] in Hx |- *.
  destruct num as [|n|n]; [done | apply round_pos_nonneg | lia].
Qed.

(** A value that is not below zero: a finite one that is not negative,
    plus infinity, or NaN. *)
Lemma rnd_nonneg (x : Qc) :
  (0 <= x)%Qc -> F32.ltb (F32.rnd x) (F32.Finite 0%Qc) = false.
Proof.
  intros Hx. unfold F32.rnd.
  pose proof (round_nonneg 24 (-149) (this x) Hx) as Hy.
  fold (Float.single x) in Hy.
  destruct (Qle_bool (inject_Z (2 ^ 128)) (Qabs (Float.single x))).
  - destruct (Qle_bool 0 (Float.single x)) eqn:E; [done |].
    apply Qle_bool_iff in Hy. congruence.
  - cbn. apply bool_decide_eq_false. intros Hlt. unfold Qclt in Hlt.
    cbn [this Q2Qc] in Hlt.
    pose proof (Qred_correct (Float.single x)) as E. rewrite E in Hlt.
    by apply Qlt_not_le in Hlt.
Qed.

Lemma not_below_zero (a : F32.t) :
  F32.ltb a (F32.Finite 0%Qc) = false <->
  match a with
  | F32.Finite q => (0 <= q)%Qc
  | F32.NInf => False
  | _ => True
  end.
Proof.
  destruct a; cbn; try done.
  rewrite bool_decide_eq_false. split; [apply Qcnot_lt_le |].
  intros Hle Hlt. by apply Qclt_not_le in Hlt.
Qed.

Lemma square_not_below_zero (a : F32.t) :
  F32.ltb (F32.mul a a) (F32.Finite 0%Qc) = false.
Proof.
  destruct a; try done. unfold F32.mul.
  apply rnd_nonneg, Qc_square_nonneg.
Qed.

Lemma add_not_below_zero (a b : F32.t) :
  F32.ltb a (F32.Finite 0%Qc) = false ->
  F32.ltb b (F32.Finite 0%Qc) = false ->
  F32.ltb (F32.add a b) (F32.Finite 0%Qc) = false.
Proof.
  rewrite !not_below_zero.
  destruct a as [x| | |], b as [y| | |]; try done.
  intros Hx Hy. apply not_below_zero, rnd_nonneg.
  rewrite <- (Qcplus_0_l 0). by apply Qcplus_le_compat.
Qed.

Lemma fold_add_not_below_zero (l : list F32.t) : forall acc : F32.t,
  F32.ltb acc (F32.Finite 0%Qc) = false ->
  Forall (fun a => F32.ltb a (F32.Finite 0%Qc) = false) l ->
  F32.ltb (foldl F32.add acc l) (F32.Finite 0%Qc) = false.
Proof.
  induction l as [|a l IH]; intros acc Hacc Hl; [done |].
  apply Forall_cons in Hl as [Ha Hl]. cbn [foldl].
  apply IH; [| done]. by apply add_not_below_zero.
Qed.

Lemma sum_not_below_zero (l : list F32.t) :
  Forall (fun a => F32.ltb a (F32.Finite 0%Qc) = false) l ->
  F32.ltb (F32.sum l) (F32.Finite 0%Qc) = false.
Proof. apply fold_add_not_below_zero, ltb_irrefl. Qed.

Lemma reduce_mean_square_not_below_zero (v : list F32.t) :
  F32.ltb (F32.reduce_mean (F32.square v)) (F32.Finite 0%Qc) = false.
Proof.
  assert (F32.ltb (F32.sum (F32.square v)) (F32.Finite 0%Qc) = false) as Hs.
  { apply sum_not_below_zero, Forall_map, Forall_forall.
    intros a _. apply square_not_below_zero. }
  unfold F32.reduce_mean. destruct (F32.square v) as [|a l] eqn:E; [done |].
  destruct (F32.sum (a :: l)) as [s| | |]; try done.
  apply rnd_nonneg, Qc_div_nonneg; [| lia].
  by apply not_below_zero in Hs.
Qed.

(** X17.  The loss that [train_q_network] returns is a [float32] mean of
    squares and so is never below zero (it is a number that is not
    negative, plus infinity, or NaN), for every session, every content of
    the replay memory and every draw of the generators. *)
Theorem q_loss_nonnegative
    (q_trainer : Agent.t -> Agent.q_feed -> TF.Session -> TF.Session)
    (self : Agent.t) (sess : TF.Session) (w : World) (batch_size : Z)
    (loss : F32.t) :
  1 <= batch_size ->
  fst (Agent.train_q_network q_trainer batch_size (self, sess, w)) = Ok loss ->
  F32.ltb loss (F32.Finite 0%Qc) = false
  /\ loss <> F32.NInf
  /\ forall q, loss = F32.Finite q -> (0 <= q)%Qc.
Proof.
  intros _ Hrun. rewrite train_q_network_unfold in Hrun.
  destruct (Random.sample _ batch_size (py_random w)) as [[mb|e] g'];
    [| discriminate Hrun].
  unfold Agent.run_q_step, Agent.q_loss in Hrun.
  destruct (Agent.next_q self sess (Agent.make_q_feed mb)) as [nq|];
    [| discriminate Hrun].
  destruct (Agent.q_value self sess (Agent.make_q_feed mb)) as [qv|];
    [| discriminate Hrun].
  cbn in Hrun. injection Hrun as <-.
  pose proof (reduce_mean_square_not_below_zero (F32.vsub nq qv)) as H.
  split; [exact H |]. apply not_below_zero in H.
  split; [by intros E; rewrite E in H |].
  intros q E. by rewrite E in H.
Qed.

Lemma q_loss_nonnegative_witness :
  exists self loss,
    stocked_agent = Ok self
    /\ 1 <= 1
    /\ fst (Agent.train_q_network (fun _ _ sess => sess) 1
              (self, Example.sess, Example.world)) = Ok loss
    /\ F32.to_Q loss = Some 16%Q
    /\ F32.ltb loss (F32.Finite 0%Qc) = false.
Proof.
  assert (exists self, stocked_agent = Ok self) as [self Hs]
    by (eexists; reflexivity).
  assert (match stocked_agent with
          | Ok self =>
              match fst (Agent.train_q_network (fun _ _ sess => sess) 1
                           (self, Example.sess, Example.world)) with
              | Ok loss => F32.to_Q loss
              | Raise _ => None
              end
          | Raise _ => None
          end = Some 16%Q) as Hv by (vm_compute; reflexivity).
  rewrite Hs in Hv.
  destruct (fst (Agent.train_q_network (fun _ _ sess => sess) 1
                   (self, Example.sess, Example.world)))
    as [loss|] eqn:Hrun; [| discriminate Hv].
  assert (1 <= 1) as H1 by lia.
  exists self, loss.
  split_and!; [exact Hs | exact H1 | exact Hrun | exact Hv |].
  exact (proj1 (q_loss_nonnegative (fun _ _ sess => sess) self Example.sess
                  Example.world 1 loss H1 Hrun)).
Defined.

(** ** Agent: get_strategy *)

Section Strategy.
Context `{Countable K}.
Implicit Types (items states : list (K * vec)) (acc : gmap K (gmap nat Qc)).

Lemma record_policy_notin (fp : vec -> vec) items : forall acc (k : K),
  k ∉ items.*1 ->
  foldl (record_policy fp) acc items !! k = acc !! k.
Proof.
  induction items as [|[k0 s0] items IH]; intros acc k Hk; [done |].
  cbn in Hk |- *. apply not_elem_of_cons in Hk as [Hne Hk].
  rewrite IH by done. unfold record_policy. cbn.
  by rewrite lookup_insert_ne.
Qed.

Lemma record_policy_in (fp : vec -> vec) items : forall acc (k : K) (s : vec),
  NoDup items.*1 -> (k, s) ∈ items ->
  foldl (record_policy fp) acc items !! k = Some (map_seq 0 (fp s)).
Proof.
  induction items as [|[k0 s0] items IH]; intros acc k s Hnd Hin.
  - by apply elem_of_nil in Hin.
  - cbn in Hnd |- *. apply NoDup_cons in Hnd as [Hk0 Hnd].
    apply elem_of_cons in Hin as [[= -> ->] | Hin].
    + rewrite record_policy_notin by done. unfold record_policy. cbn.
      by rewrite lookup_insert_eq.
    + by apply IH.
Qed.

Lemma predict_policy_row softmax name input_dim action_dim max_replay
    max_supervised (self : Agent.t) (sess : TF.Session) (fp : vec -> vec)
    (s : vec) :
  Agent.init softmax name input_dim action_dim max_replay max_supervised
    = Ok self ->
  Agent.forward (TF.variable_scope ("agent_" +:+ name) "policy")
    softmax sess = Ok fp ->
  Agent.predict_policy self (NdArray [1; Z.of_nat (length s)] [s]) sess
  = if Z.of_nat (length s) =? input_dim then (Ok [fp s], sess)
    else (Raise AssertionError, sess).
Proof.
  intros Hinit Hp.
  destruct (init_policy_network _ _ _ _ _ _ _ Hinit) as (Ep & Ei & _).
  unfold Agent.predict_policy. rewrite Ep, Ei, predict_unfold.
  cbn [shape rows]. destruct (_ =? input_dim); [| done].
  by rewrite (create_network_output _ _ _ _ fp _ Hp).
Qed.

Lemma get_strategy_loop_ok softmax name input_dim action_dim max_replay
    max_supervised (self : Agent.t) (sess : TF.Session) (fp : vec -> vec)
    items :
  Agent.init softmax name input_dim action_dim max_replay max_supervised
    = Ok self ->
  Agent.forward (TF.variable_scope ("agent_" +:+ name) "policy")
    softmax sess = Ok fp ->
  Forall (fun item => Z.of_nat (length item.2) = input_dim) items ->
  forall acc,
    AgentOps.get_strategy_loop self items acc sess
    = (Ok (foldl (record_policy fp) acc items), sess).
Proof.
  intros Hinit Hp Hw.
  induction Hw as [|[k s] items Hs _ IH]; intros acc; [done |].
  cbn [AgentOps.get_strategy_loop foldl]. unfold bind.
  rewrite (predict_policy_row _ _ _ _ _ _ _ _ _ _ Hinit Hp).
  cbn in Hs. rewrite Hs, Z.eqb_refl. rewrite IH.
  unfold record_policy, AgentOps.ravel. cbn. by rewrite app_nil_r.
Qed.

(** X18.  With the policy network's variables set and every state vector
    of width [input_dim], [get_strategy] returns a dictionary with exactly
    the keys of [states]; the entry of an information set maps each action
    index [i] to entry [i] of the policy network's output on that set's
    state vector (and has no other index).  The session is not changed. *)
Theorem get_strategy_spec softmax name input_dim action_dim max_replay
    max_supervised (self : Agent.t) (sess : TF.Session) (fp : vec -> vec)
    states :
  Agent.init softmax name input_dim action_dim max_replay max_supervised
    = Ok self ->
  Agent.forward (TF.variable_scope ("agent_" +:+ name) "policy")
    softmax sess = Ok fp ->
  Forall (fun item => Z.of_nat (length item.2) = input_dim) states ->
  NoDup states.*1 ->
  exists strategy,
    AgentOps.get_strategy self states sess = (Ok strategy, sess)
    /\ (forall k s, (k, s) ∈ states ->
          exists inner, strategy !! k = Some inner
                        /\ forall i : nat, inner !! i = fp s !! i)
    /\ (forall k, k ∉ states.*1 -> strategy !! k = None).
Proof.
  intros Hinit Hp Hw Hnd. eexists. split.
  - unfold AgentOps.get_strategy.
    apply (get_strategy_loop_ok _ _ _ _ _ _ _ _ _ _ Hinit Hp Hw).
  - split.
    + intros k s Hin. eexists. split.
      * by apply record_policy_in.
      * intros i. apply lookup_map_seq_0.
    + intros k Hk. by rewrite record_policy_notin.
Qed.

(** X19.  If some state vector has a width other than [input_dim] (the
    policy network's variables being set), [get_strategy] raises
    [AssertionError] and returns no strategy at all, not even for the
    information sets that were well formed. *)
Theorem get_strategy_wrong_width softmax name input_dim action_dim max_replay
    max_supervised (self : Agent.t) (sess : TF.Session) (fp : vec -> vec)
    states :
  Agent.init softmax name input_dim action_dim max_replay max_supervised
    = Ok self ->
  Agent.forward (TF.variable_scope ("agent_" +:+ name) "policy")
    softmax sess = Ok fp ->
  Exists (fun item => Z.of_nat (length item.2) <> input_dim) states ->
  AgentOps.get_strategy self states sess = (Raise AssertionError, sess).
Proof.
  intros Hinit Hp Hex. unfold AgentOps.get_strategy.
  generalize (∅ : gmap K (gmap nat Qc)).
  induction states as [|[k s] states IH]; intros acc.
  - by apply Exists_nil in Hex.
  - cbn [AgentOps.get_strategy_loop]. unfold bind.
    rewrite (predict_policy_row _ _ _ _ _ _ _ _ _ _ Hinit Hp).
    destruct (Z.eqb_spec (Z.of_nat (length s)) input_dim) as [E | Hne];
      [| done].
    apply Exists_cons in Hex as [Hbad | Hex]; [done |].
    by apply IH.
Qed.

End Strategy.

Lemma get_strategy_spec_witness :
  exists self fp strategy inner,
    Agent.init (fun x => x) "a" 1 1 (Some 3) 3 = Ok self
    /\ Agent.forward (TF.variable_scope ("agent_" +:+ "a") "policy")
         (fun x => x) full_session = Ok fp
    /\ Forall (fun item : string * vec => Z.of_nat (length item.2) = 1)
         [("J", [0%Qc]); ("Q", [1%Qc])]
    /\ NoDup [("J", [0%Qc]); ("Q", [1%Qc])].*1
    /\ AgentOps.get_strategy self [("J", [0%Qc]); ("Q", [1%Qc])] full_session
       = (Ok strategy, full_session)
    /\ strategy !! "Q" = Some inner
    /\ inner !! 0%nat = fp [1%Qc] !! 0%nat.
Proof.
  assert (exists self, Agent.init (fun x => x) "a" 1 1 (Some 3) 3 = Ok self)
    as [self Hinit] by (eexists; reflexivity).
  destruct (Agent.forward (TF.variable_scope ("agent_" +:+ "a") "policy")
              (fun x => x) full_session) as [fp|] eqn:Hp;
    [| vm_compute in Hp; discriminate Hp].
  assert (Forall (fun item : string * vec => Z.of_nat (length item.2) = 1)
            [("J", [0%Qc]); ("Q", [1%Qc])]) as Hw
    by (repeat constructor).
  assert (NoDup [("J", [0%Qc]); ("Q", [1%Qc])].*1) as Hnd
    by (apply (bool_decide_unpack _); reflexivity).
  destruct (get_strategy_spec (fun x => x) "a" 1 1 (Some 3) 3 self
              full_session fp [("J", [0%Qc]); ("Q", [1%Qc])]
              Hinit Hp Hw Hnd) as (strategy & Hrun & Hin & _).
  destruct (Hin "Q" [1%Qc]) as (inner & Hk & Hi);
    [apply list_elem_of_further, list_elem_of_here |].
  exists self, fp, strategy, inner.
  split_and!; [exact Hinit | reflexivity | exact Hw | exact Hnd | exact Hrun
              | exact Hk | exact (Hi 0%nat)].
Defined.

Lemma get_strategy_wrong_width_witness :
  exists self fp,
    Agent.init (fun x => x) "a" 1 1 (Some 3) 3 = Ok self
    /\ Agent.forward (TF.variable_scope ("agent_" +:+ "a") "policy")
         (fun x => x) full_session = Ok fp
    /\ Exists (fun item : string * vec => Z.of_nat (length item.2) <> 1)
         [("J", [0%Qc]); ("Q", [1%Qc; 1%Qc])]
    /\ AgentOps.get_strategy self [("J", [0%Qc]); ("Q", [1%Qc; 1%Qc])]
         full_session
       = (Raise AssertionError, full_session).
Proof.
  assert (exists self, Agent.init (fun x => x) "a" 1 1 (Some 3) 3 = Ok self)
    as [self Hinit] by (eexists; reflexivity).
  destruct (Agent.forward (TF.variable_scope ("agent_" +:+ "a") "policy")
              (fun x => x) full_session) as [fp|] eqn:Hp;
    [| vm_compute in Hp; discriminate Hp].
  assert (Exists (fun item : string * vec => Z.of_nat (length item.2) <> 1)
            [("J", [0%Qc]); ("Q", [1%Qc; 1%Qc])]) as Hex.
  { apply Exists_cons_tl, Exists_cons_hd. cbn. lia. }
  exists self, fp.
  split_and!; [exact Hinit | reflexivity | exact Hex |].
  exact (get_strategy_wrong_width (fun x => x) "a" 1 1 (Some 3) 3 self
           full_session fp [("J", [0%Qc]); ("Q", [1%Qc; 1%Qc])]
           Hinit Hp Hex).
Defined.

(** ** Agent: one optimizer step per training call *)

(** X20.  With [1 <= batch_size <= len(replay_memory)], [train_q_network]
    draws [batch_size] transitions from the replay memory without
    replacement and runs the graph once on them: if the loss can be
    computed it is returned and the session becomes the one optimizer
    step [q_trainer] computes from that minibatch; otherwise the
    exception is raised and the session is as before.  The agent is
    unchanged in both cases.  [train_policy_network] does the same with
    the supervised memory. *)
Theorem train_runs_one_step
    (q_trainer : Agent.t -> Agent.q_feed -> TF.Session -> TF.Session)
    (log : Qc -> Qc)
    (policy_trainer :
       Agent.t -> AgentOps.policy_feed -> TF.Session -> TF.Session)
    (self : Agent.t) (sess : TF.Session) (w : World) (batch_size : Z) :
  1 <= batch_size ->
  (batch_size <= CircularBuffer.len (Agent.replay_memory self) ->
   exists minibatch w',
     Z.of_nat (length minibatch) = batch_size
     /\ minibatch ⊆+ CircularBuffer.buffer (Agent.replay_memory self)
     /\ Agent.train_q_network q_trainer batch_size (self, sess, w)
        = match Agent.q_loss self sess (Agent.make_q_feed minibatch) with
          | Ok loss =>
              (Ok loss,
               (self, q_trainer self (Agent.make_q_feed minibatch) sess, w'))
          | Raise e => (Raise e, (self, sess, w'))
          end)
  /\ (batch_size <= Reservoir.len (Agent.supervised_memory self) ->
      exists minibatch w',
        Z.of_nat (length minibatch) = batch_size
        /\ minibatch ⊆+ Reservoir.reservoir (Agent.supervised_memory self)
        /\ AgentOps.train_policy_network log policy_trainer batch_size
             (self, sess, w)
           = match AgentOps.policy_loss log self sess
                     (AgentOps.make_policy_feed minibatch) with
             | Ok loss =>
                 (Ok loss,
                  (self,
                   policy_trainer self (AgentOps.make_policy_feed minibatch)
                     sess, w'))
             | Raise e => (Raise e, (self, sess, w'))
             end).
Proof.
  intros Hn. split; intros Hle.
  - rewrite train_q_network_unfold.
    destruct (random_sample_ok
                (CircularBuffer.buffer (Agent.replay_memory self))
                batch_size (py_random w))
      as (mb & g' & -> & Hlen & Hsub);
      [unfold CircularBuffer.len in Hle; lia |].
    by exists mb, (World_ (np_random w) g').
  - rewrite train_policy_network_unfold.
    destruct (random_sample_ok
                (Reservoir.reservoir (Agent.supervised_memory self))
                batch_size (py_random w))
      as (mb & g' & -> & Hlen & Hsub);
      [unfold Reservoir.len in Hle; lia |].
    by exists mb, (World_ (np_random w) g').
Qed.

Lemma train_runs_one_step_witness :
  exists self minibatch w',
    stocked_agent = Ok self
    /\ 1 <= 1
    /\ 1 <= CircularBuffer.len (Agent.replay_memory self)
    /\ minibatch ⊆+ CircularBuffer.buffer (Agent.replay_memory self)
    /\ Agent.train_q_network (fun _ _ _ => ∅) 1
         (self, Example.sess, Example.world)
       = match Agent.q_loss self Example.sess
                 (Agent.make_q_feed minibatch) with
         | Ok loss => (Ok loss, (self, ∅, w'))
         | Raise e => (Raise e, (self, Example.sess, w'))
         end.
Proof.
  assert (exists self,
            stocked_agent = Ok self
            /\ 1 <= CircularBuffer.len (Agent.replay_memory self))
    as (self & Hs & Hlen).
  { eexists. split; [reflexivity |]. vm_compute. discriminate. }
  assert (1 <= 1) as H1 by lia.
  destruct (train_runs_one_step (fun _ _ _ => ∅) (fun x => x)
              (fun _ _ sess => sess) self Example.sess Example.world 1 H1)
    as [Hq _].
  destruct (Hq Hlen) as (mb & w' & _ & Hsub & Hrun).
  exists self, mb, w'.
  split_and!; [exact Hs | exact H1 | exact Hlen | exact Hsub | exact Hrun].
Defined.

(** ** Agent: feeds that the session refuses *)

Lemma random_sample_none {A} (population : list A) (g : rng) :
  Random.sample population 0 g = (Ok [], g).
Proof.
  unfold Random.sample.
  destruct (Z.leb_spec 0 (Z.of_nat (length population))); [done | lia].
Qed.

Lemma check_feed_refused (self : Agent.t) (minibatch : list transition) :
  Exists (fun d => Z.of_nat (length (state d))
                   <> Agent.input_width (Agent.q_network self)) minibatch ->
  Agent.check_feed self (Agent.make_q_feed minibatch) = Raise ValueError.
Proof.
  intros Hex. unfold Agent.check_feed, Agent.make_q_feed.
  cbn [Agent.feed_states Agent.feed_next_states].
  rewrite feed_input_np_array_refused; [done |].
  right. apply Exists_exists in Hex as (d & Hd & Hbad).
  apply Exists_exists. exists (state d). split; [| done].
  apply list_elem_of_In, in_map, list_elem_of_In, Hd.
Qed.

(** X21.  A training step asked for a batch of size [0] is not a step
    that does nothing: the empty arrays built from the empty sample are
    refused by [sess.run] with [ValueError], for both training methods,
    whatever the memories hold.  The agent, the session and the generators
    are as before. *)
Theorem train_with_empty_batch
    (q_trainer : Agent.t -> Agent.q_feed -> TF.Session -> TF.Session)
    (log : Qc -> Qc)
    (policy_trainer :
       Agent.t -> AgentOps.policy_feed -> TF.Session -> TF.Session)
    (self : Agent.t) (sess : TF.Session) (w : World) :
  Agent.train_q_network q_trainer 0 (self, sess, w)
  = (Raise ValueError, (self, sess, w))
  /\ AgentOps.train_policy_network log policy_trainer 0 (self, sess, w)
     = (Raise ValueError, (self, sess, w)).
Proof.
  rewrite train_q_network_unfold, train_policy_network_unfold.
  rewrite !random_sample_none. by destruct w.
Qed.

(** X22.  When no transition of the replay memory has a state of the
    width of the value network's input placeholder (the actions being in
    the range of [int32]), every value-training step with
    [1 <= batch_size <= len(replay_memory)] raises [ValueError]: the
    sample is drawn, the feed is refused, and the agent, the session and
    numpy's generator are as before. *)
Theorem train_refuses_misshapen_states
    (q_trainer : Agent.t -> Agent.q_feed -> TF.Session -> TF.Session)
    (self : Agent.t) (sess : TF.Session) (w : World) (batch_size : Z) :
  Forall (fun d => Z.of_nat (length (state d))
                   <> Agent.input_width (Agent.q_network self)
                   /\ - 2 ^ 31 <= action d < 2 ^ 31)
         (CircularBuffer.buffer (Agent.replay_memory self)) ->
  1 <= batch_size <= CircularBuffer.len (Agent.replay_memory self) ->
  exists w',
    Agent.train_q_network q_trainer batch_size (self, sess, w)
    = (Raise ValueError, (self, sess, w'))
    /\ np_random w' = np_random w.
Proof.
  intros Hall Hn. rewrite train_q_network_unfold.
  destruct (random_sample_ok
              (CircularBuffer.buffer (Agent.replay_memory self))
              batch_size (py_random w))
    as (mb & g' & -> & Hlen & Hsub);
    [unfold CircularBuffer.len in Hn; lia |].
  exists (World_ (np_random w) g'). split; [| reflexivity].
  unfold Agent.run_q_step, Agent.q_loss, Agent.next_q.
  rewrite check_feed_refused; [done |].
  destruct mb as [|d mb]; [cbn in Hlen; lia |].
  apply Exists_cons_hd.
  rewrite Forall_forall in Hall. apply Hall.
  eapply elem_of_submseteq; [| exact Hsub]. constructor.
Qed.

Lemma train_refuses_misshapen_states_witness :
  exists self w',
    Example.agent = Ok self
    /\ Forall (fun d => Z.of_nat (length (state d))
                        <> Agent.input_width (Agent.q_network self)
                        /\ - 2 ^ 31 <= action d < 2 ^ 31)
         [Transition [0%Qc; 0%Qc] 0 [0%Qc; 0%Qc] 1%Qc false]
    /\ 1 <= 1 <= 1
    /\ Agent.train_q_network (fun _ _ _ => ∅) 1
         (AgentOps.set_replay_memory self
            (CircularBuffer.Build (Some 3)
               [Transition [0%Qc; 0%Qc] 0 [0%Qc; 0%Qc] 1%Qc false]),
          Example.sess, Example.world)
       = (Raise ValueError,
          (AgentOps.set_replay_memory self
             (CircularBuffer.Build (Some 3)
                [Transition [0%Qc; 0%Qc] 0 [0%Qc; 0%Qc] 1%Qc false]),
           Example.sess, w')).
Proof.
  assert (exists self, Example.agent = Ok self) as [self Hagent]
    by (eexists; reflexivity).
  assert (Agent.input_width (Agent.q_network self) = 1) as Hw.
  { unfold Example.agent in Hagent.
    by apply init_inv in Hagent as (replay & _ & ->). }
  assert (Forall (fun d => Z.of_nat (length (state d))
                           <> Agent.input_width (Agent.q_network self)
                           /\ - 2 ^ 31 <= action d < 2 ^ 31)
            [Transition [0%Qc; 0%Qc] 0 [0%Qc; 0%Qc] 1%Qc false]) as Hall.
  { constructor; [| constructor]. rewrite Hw. cbn. lia. }
  assert (1 <= 1 <= 1) as Hn by lia.
  destruct (train_refuses_misshapen_states (fun _ _ _ => ∅)
              (AgentOps.set_replay_memory self
                 (CircularBuffer.Build (Some 3)
                    [Transition [0%Qc; 0%Qc] 0 [0%Qc; 0%Qc] 1%Qc false]))
              Example.sess Example.world 1 Hall Hn) as (w' & Hrun & _).
  exists self, w'.
  split; [exact Hagent |]. split; [exact Hall |]. split; [exact Hn |].
  exact Hrun.
Defined.
